(** * The CloudFront image resizer ([src/handler/CloudFront/imageResizer.ts])

    A shallow embedding of the Lambda@Edge handler: the tables [imageType]
    and [validType], request parsing ([decodeURIComponent], [path.parse],
    [decodeURI]), the three mutable response objects with the header object
    they share, the callbacks of the handler (the timer, the S3 callback,
    the Sharp continuation) and the event loop that runs them.

    JavaScript strings are modelled as [string]; a character outside ASCII
    is held as its UTF-8 bytes.  The external collaborators (S3, the
    dimension probe [sizeOf], the Sharp codec) are fields of an environment
    record. *)

From Stdlib Require Import ZArith NArith Ascii String List Bool Lia.
From stdpp Require Import gmap strings list fin_maps.
Import ListNotations.

Local Open Scope string_scope.
Local Open Scope Z_scope.

(** ** JavaScript values the handler relies on *)
Module JS.

(** A Node [Buffer]. *)
Definition Buffer : Type := list Byte.byte.

(** [Buffer.length], a number. *)
Definition Buffer_length (b : Buffer) : Z := Z.of_nat (length b).

(** [String.prototype.length] on the strings of this program. *)
Definition String_length (s : string) : Z := Z.of_nat (String.length s).

(** *** Property lookup on an object literal

    [o[k]] on an object literal finds the literal's own properties and
    then the properties every object inherits from [Object.prototype]. *)
Definition Object_prototype_keys : list string :=
  [ "constructor"; "__proto__"; "hasOwnProperty"; "isPrototypeOf";
    "propertyIsEnumerable"; "toLocaleString"; "toString"; "valueOf";
    "__defineGetter__"; "__defineSetter__"; "__lookupGetter__";
    "__lookupSetter__" ].

Inductive Property (V : Type) : Type :=
| Own (v : V)      (* a property of the literal itself *)
| Inherited        (* a function or object of [Object.prototype]: truthy *)
| Undefined.       (* no such property: [undefined] *)
Arguments Own {V} v.
Arguments Inherited {V}.
Arguments Undefined {V}.

Fixpoint own_property {V : Type} (o : list (string * V)) (k : string) : option V :=
  match o with
  | [] => None
  | (k', v) :: o' => if String.eqb k k' then Some v else own_property o' k
  end.

Definition get {V : Type} (o : list (string * V)) (k : string) : Property V :=
  match own_property o k with
  | Some v => Own v
  | None =>
      if existsb (String.eqb k) Object_prototype_keys then Inherited else Undefined
  end.

(** [!o[k]] when every own value of [o] is truthy (a non-empty string or
    an object), as in both tables of the handler. *)
Definition missing {V : Type} (p : Property V) : bool :=
  match p with
  | Undefined => true
  | _ => false
  end.

(** A property key made from a possibly missing array element:
    [undefined] is converted to the string "undefined". *)
Definition ToPropertyKey (k : option string) : string :=
  match k with
  | Some s => s
  | None => "undefined"
  end.

(** *** [Buffer.prototype.toString('base64')] *)
Definition base64_alphabet : string :=
  "ABCDEFGHIJKLMNOPQRSTUVWXYZabcdefghijklmnopqrstuvwxyz0123456789+/".

Definition base64_digit (n : N) : ascii :=
  match String.get (N.to_nat n) base64_alphabet with
  | Some c => c
  | None => "="%char
  end.

Definition octet (b : Byte.byte) : N := Byte.to_N b.

Fixpoint toString_base64 (b : Buffer) : string :=
  match b with
  | [] => EmptyString
  | [x] =>
      let n := N.shiftl (octet x) 16 in
      String (base64_digit (N.land (N.shiftr n 18) 63))
        (String (base64_digit (N.land (N.shiftr n 12) 63)) "==")
  | [x; y] =>
      let n := N.lor (N.shiftl (octet x) 16) (N.shiftl (octet y) 8) in
      String (base64_digit (N.land (N.shiftr n 18) 63))
        (String (base64_digit (N.land (N.shiftr n 12) 63))
           (String (base64_digit (N.land (N.shiftr n 6) 63)) "="))
  | x :: y :: z :: rest =>
      let n := N.lor (N.lor (N.shiftl (octet x) 16) (N.shiftl (octet y) 8)) (octet z) in
      String (base64_digit (N.land (N.shiftr n 18) 63))
        (String (base64_digit (N.land (N.shiftr n 12) 63))
           (String (base64_digit (N.land (N.shiftr n 6) 63))
              (String (base64_digit (N.land n 63)) (toString_base64 rest))))
  end.

(** *** [JSON.stringify] of an object whose values are strings *)
Definition dquote : ascii := "034"%char.
Definition backslash : ascii := "092"%char.

Fixpoint json_escape (s : string) : string :=
  match s with
  | EmptyString => EmptyString
  | String c s' =>
      if Ascii.eqb c dquote || Ascii.eqb c backslash
      then String backslash (String c (json_escape s'))
      else String c (json_escape s')
  end.

Definition json_string (s : string) : string :=
  String dquote (json_escape s ++ String dquote EmptyString).

Fixpoint json_members (o : list (string * string)) : string :=
  match o with
  | [] => EmptyString
  | [(k, v)] => json_string k ++ ":" ++ json_string v
  | (k, v) :: o' => json_string k ++ ":" ++ json_string v ++ "," ++ json_members o'
  end.

Definition JSON_stringify (o : list (string * string)) : string :=
  "{" ++ json_members o ++ "}".

(** *** [decodeURIComponent] and [decodeURI] (ECMA-262, Decode) *)
Definition hex_value (c : ascii) : option N :=
  let n := N_of_ascii c in
  if (48 <=? n)%N && (n <=? 57)%N then Some (n - 48)%N
  else if (65 <=? n)%N && (n <=? 70)%N then Some (n - 55)%N
  else if (97 <=? n)%N && (n <=? 102)%N then Some (n - 87)%N
  else None.

(** Number of leading 1 bits of an octet. *)
Definition leading_ones (B : N) : nat :=
  if negb (N.testbit B 7) then 0%nat
  else if negb (N.testbit B 6) then 1%nat
  else if negb (N.testbit B 5) then 2%nat
  else if negb (N.testbit B 4) then 3%nat
  else if negb (N.testbit B 3) then 4%nat
  else 5%nat.

Definition is_continuation (B : N) : bool :=
  N.eqb (N.land B 192) 128.

(** The code point a well-formed octet sequence encodes. *)
Definition utf8_code_point (octets : list N) : option N :=
  match octets with
  | [a; b] =>
      let v := N.lor (N.shiftl (N.land a 31) 6) (N.land b 63) in
      if (128 <=? v)%N then Some v else None
  | [a; b; c] =>
      let v := N.lor (N.lor (N.shiftl (N.land a 15) 12) (N.shiftl (N.land b 63) 6))
                 (N.land c 63) in
      if (2048 <=? v)%N && negb ((55296 <=? v)%N && (v <=? 57343)%N)
      then Some v else None
  | [a; b; c; d] =>
      let v := N.lor (N.lor (N.lor (N.shiftl (N.land a 7) 18) (N.shiftl (N.land b 63) 12))
                        (N.shiftl (N.land c 63) 6)) (N.land d 63) in
      if (65536 <=? v)%N && (v <=? 1114111)%N then Some v else None
  | _ => None
  end.

Fixpoint string_of_octets (octets : list N) : string :=
  match octets with
  | [] => EmptyString
  | o :: os => String (ascii_of_N o) (string_of_octets os)
  end.

(** [Decode preserve need octets s]: [need] continuation escapes are
    still expected for the sequence begun by [octets].  [None] is a
    thrown [URIError]. *)
Fixpoint Decode (preserve : ascii -> bool) (need : nat) (octets : list N)
    (s : string) : option string :=
  match s with
  | EmptyString =>
      match need with
      | O => Some EmptyString
      | S _ => None
      end
  | String c rest =>
      if Ascii.eqb c "%"%char then
        match rest with
        | String h1 (String h2 rest') =>
            match hex_value h1, hex_value h2 with
            | Some a, Some b =>
                let B := (16 * a + b)%N in
                match need with
                | O =>
                    match leading_ones B with
                    | O =>
                        let S' :=
                          if preserve (ascii_of_N B)
                          then String c (String h1 (String h2 EmptyString))
                          else String (ascii_of_N B) EmptyString in
                        option_map (String.append S') (Decode preserve 0 [] rest')
                    | S O => None
                    | S (S n) =>
                        if (n <=? 2)%nat
                        then Decode preserve (S n) [B] rest'
                        else None
                    end
                | S need' =>
                    if is_continuation B then
                      match need' with
                      | O =>
                          match utf8_code_point (octets ++ [B]) with
                          | Some _ =>
                              option_map
                                (String.append (string_of_octets (octets ++ [B])))
                                (Decode preserve 0 [] rest')
                          | None => None
                          end
                      | S _ => Decode preserve need' (octets ++ [B]) rest'
                      end
                    else None
                end
            | _, _ => None
            end
        | _ => None
        end
      else
        match need with
        | O => option_map (String c) (Decode preserve 0 [] rest)
        | S _ => None
        end
  end.

Fixpoint string_mem (c : ascii) (s : string) : bool :=
  match s with
  | EmptyString => false
  | String c' s' => Ascii.eqb c c' || string_mem c s'
  end.

Definition decodeURIComponent (s : string) : option string :=
  Decode (fun _ => false) 0 [] s.

Definition decodeURI (s : string) : option string :=
  Decode (fun c => string_mem c ";/?:@&=+$,#") 0 [] s.

(** *** [String.prototype.split('/')], [replace('.', '')], [toLowerCase] *)
Fixpoint split_on (sep : ascii) (cur : string) (s : string) : list string :=
  match s with
  | EmptyString => [cur]
  | String c s' =>
      if Ascii.eqb c sep then cur :: split_on sep EmptyString s'
      else split_on sep (cur ++ String c EmptyString) s'
  end.

Definition split (sep : ascii) (s : string) : list string :=
  split_on sep EmptyString s.

(** [s.replace(c, '')]: the first occurrence only. *)
Fixpoint remove_first (c : ascii) (s : string) : string :=
  match s with
  | EmptyString => EmptyString
  | String c' s' => if Ascii.eqb c c' then s' else String c' (remove_first c s')
  end.

Definition lower (c : ascii) : ascii :=
  let n := N_of_ascii c in
  if (65 <=? n)%N && (n <=? 90)%N then ascii_of_N (n + 32) else c.

(** On ASCII.  A letter outside ASCII is left as it is, where
    [String.prototype.toLowerCase] lowers it too; the one such letter
    that lowers to ASCII alone is U+212A, to 'k', and neither a key of
    the two tables, nor an inherited name, nor 'svg', 'gif' or 'webp'
    holds a 'k', so no lookup and no comparison of the handler differs. *)
Fixpoint toLowerCase (s : string) : string :=
  match s with
  | EmptyString => EmptyString
  | String c s' => String (lower c) (toLowerCase s')
  end.

End JS.

(** ** Node's [path.parse] (POSIX) *)
Module Path.

Record ParsedPath : Type := {
  root : string;
  dir : string;
  base : string;
  ext : string;
  name : string
}.

Definition charCodeAt (s : string) (i : Z) : option ascii :=
  if i <? 0 then None else String.get (Z.to_nat i) s.

(** [s.slice(a, b)] for [0 <= a]. *)
Definition slice (s : string) (a b : Z) : string :=
  String.substring (Z.to_nat a) (Z.to_nat (b - a)) s.

(** The variables of the backwards scan over the path. *)
Record Scan : Type := {
  startDot : Z;
  startPart : Z;
  end_ : Z;
  matchedSlash : bool;
  preDotState : Z
}.

Definition scan_init : Scan :=
  {| startDot := -1; startPart := 0; end_ := -1; matchedSlash := true; preDotState := 0 |}.

(** [for (; i >= start; --i)]; [fuel] bounds the iterations by the
    length of the path. *)
Fixpoint scan (path : string) (start : Z) (fuel : nat) (i : Z) (st : Scan) : Scan :=
  match fuel with
  | O => st
  | S fuel' =>
      if i <? start then st
      else
        match charCodeAt path i with
        | None => st
        | Some code =>
            if Ascii.eqb code "/"%char then
              if negb (matchedSlash st)
              then {| startDot := startDot st; startPart := i + 1; end_ := end_ st;
                      matchedSlash := matchedSlash st; preDotState := preDotState st |}
              else scan path start fuel' (i - 1) st
            else
              let st1 :=
                if end_ st =? -1
                then {| startDot := startDot st; startPart := startPart st; end_ := i + 1;
                        matchedSlash := false; preDotState := preDotState st |}
                else st in
              let st2 :=
                if Ascii.eqb code "."%char then
                  if startDot st1 =? -1
                  then {| startDot := i; startPart := startPart st1; end_ := end_ st1;
                          matchedSlash := matchedSlash st1; preDotState := preDotState st1 |}
                  else if negb (preDotState st1 =? 1)
                  then {| startDot := startDot st1; startPart := startPart st1;
                          end_ := end_ st1; matchedSlash := matchedSlash st1;
                          preDotState := 1 |}
                  else st1
                else if negb (startDot st1 =? -1)
                then {| startDot := startDot st1; startPart := startPart st1;
                        end_ := end_ st1; matchedSlash := matchedSlash st1;
                        preDotState := -1 |}
                else st1 in
              scan path start fuel' (i - 1) st2
        end
  end.

Definition parse (path : string) : ParsedPath :=
  let len := Z.of_nat (String.length path) in
  if len =? 0 then
    {| root := ""; dir := ""; base := ""; ext := ""; name := "" |}
  else
    let isAbsolute :=
      match charCodeAt path 0 with
      | Some c => Ascii.eqb c "/"%char
      | None => false
      end in
    let start := if isAbsolute then 1 else 0 in
    let st := scan path start (String.length path) (len - 1) scan_init in
    let from := if (startPart st =? 0) && isAbsolute then 1 else startPart st in
    let no_ext :=
      (end_ st =? -1)
      || (startDot st =? -1)
      || (preDotState st =? 0)
      || ((preDotState st =? 1)
          && (startDot st =? end_ st - 1)
          && (startDot st =? startPart st + 1)) in
    {| root := if isAbsolute then "/" else "";
       dir := if 0 <? startPart st then slice path 0 (startPart st - 1)
              else if isAbsolute then "/" else "";
       base := if end_ st =? -1 then "" else slice path from (end_ st);
       ext := if no_ext then "" else slice path (startDot st) (end_ st);
       name := if end_ st =? -1 then ""
               else if no_ext then slice path from (end_ st)
               else slice path from (startDot st) |}.

End Path.

(** ** The handler *)
Module Resizer.
Import JS.

(** *** Configuration tables *)
Definition BUCKET_image : string := "ogxyz-image".
Definition BUCKET_profile : string := "ogxyz-image-profile".

(** A target dimension: [null], a number, or [undefined] when the
    property is read from a value that has none. *)
Inductive Dim : Type :=
| null
| undefined
| number (n : Z).

Record Target : Type := { x : Dim; y : Dim }.

Definition imageType : list (string * Target) :=
  [ ("original", {| x := null; y := null |});
    ("profile", {| x := number 200; y := number 200 |});
    ("thumbnail", {| x := number 300; y := number 300 |});
    ("miniThumbnail", {| x := number 150; y := number 150 |});
    ("resized", {| x := number 1440; y := number 1440 |}) ].

Definition validType : list (string * string) :=
  [ ("png", "image/png");
    ("jpg", "image/jpg");
    ("jpeg", "image/jpeg");
    ("gif", "image/gif");
    ("webp", "image/webp");
    ("svg+xml", "image/svg+xml");
    ("svg", "image/svg+xml") ].

Definition polyfillHost : string :=
  "https://d4gknzklml.execute-api.us-east-1.amazonaws.com".

(** [1024 * 1024] *)
Definition limit : Z := 1024 * 1024.

(** [d > w] on numbers: [null] converts to 0, [undefined] to NaN. *)
Definition gt (d : Dim) (w : Z) : bool :=
  match d with
  | null => 0 >? w
  | undefined => false
  | number n => n >? w
  end.

(** [imageType[k].x] and [imageType[k].y] once [imageType[k]] is
    truthy: an inherited function or object has neither property. *)
Definition target_of (p : Property Target) : Target :=
  match p with
  | Own t => t
  | _ => {| x := undefined; y := undefined |}
  end.

(** *** Responses *)
Record Header : Type := { key : string; value : string }.

Inductive Encoding : Type := text | base64.

Record Response : Type := {
  status : string;
  statusDescription : string;
  headers : gmap string (list Header);
  bodyEncoding : option Encoding;
  body : option string
}.

(** What the Lambda runtime is told. *)
Inductive Completion : Type :=
| Respond (r : Response)      (* [callback(null, r)] *)
| Fail (error : string)       (* [callback(error)] *)
| Uncaught (error : string).  (* an exception nothing catches *)

(** *** The invocation and the external collaborators *)
Record Event : Type := {
  uri : string;                                   (* [request.uri] *)
  origin_status : string;                         (* [response.status] *)
  origin_statusDescription : string;
  origin_headers : gmap string (list Header)
}.

Record S3Error : Type := { statusCode : Z }.
Record S3Data : Type := { Body : option Buffer }.

Inductive S3Outcome : Type :=
| S3Throws (error : string)
| S3Calls (err : option S3Error) (data : option S3Data).

Record ImageInfo : Type := { width : Z; height : Z; type : string }.

Inductive SizeOutcome : Type :=
| SizeThrows (error : string)
| SizeReturns (size : option ImageInfo).

Inductive SharpOutcome : Type :=
| Resolves (resizedImage : Buffer)
| Rejects (error : string).

Record Env : Type := {
  S3_getObject : string -> string -> S3Outcome;   (* Bucket, Key *)
  S3_latency : nat;                               (* ms until its callback *)
  sizeOf : Buffer -> SizeOutcome;
  Sharp : Buffer -> bool -> Dim -> Dim -> SharpOutcome;  (* input, animated, x, y *)
  Sharp_latency : nat                             (* ms until it settles *)
}.

(** *** The mutable objects of one invocation

    [responseSuccessHeader] and [response] refer to one [headers]
    object ([response] is a shallow copy), held once as
    [successHeaders]; [responseFailHeader] and [failResponse] share
    [failHeaders].  [response.status] and [response.statusDescription]
    were copied when they were '200' and 'OK' and are never assigned. *)
Record Store : Type := {
  responseSuccessHeader_status : string;
  responseSuccessHeader_statusDescription : string;
  successHeaders : gmap string (list Header);
  response_body : string;
  failResponse_status : string;
  failResponse_statusDescription : string;
  failResponse_body : string;
  failHeaders : gmap string (list Header)
}.

Definition init (ev : Event) : Store :=
  {| responseSuccessHeader_status := "200";
     responseSuccessHeader_statusDescription := "OK";
     successHeaders :=
       <["content-type" := [ {| key := "Content-Type"; value := "" |} ]]>
         (<["cache-control" := [ {| key := "Cache-Control"; value := "max-age=31536000" |} ]]>
            (origin_headers ev));
     response_body := "{}";
     failResponse_status := "500";
     failResponse_statusDescription := "Failure";
     failResponse_body :=
       "{ " ++ json_string "errorCode" ++ ": 500, " ++ json_string "errorMsg" ++ ": "
         ++ json_string "Invalid Error" ++ " }";
     failHeaders :=
       <["content-type" := [ {| key := "Content-Type"; value := "application/json" |} ]]>
         (<["cache-control" := [ {| key := "Cache-Control"; value := "no-cache" |} ]]>
            (origin_headers ev)) |}.

(** [failResponse.status = s; failResponse.statusDescription = d;
    failResponse.body = JSON.stringify({ errorCode: c, errorMsg: m })] *)
Definition set_fail (s d c m : string) (st : Store) : Store :=
  {| responseSuccessHeader_status := responseSuccessHeader_status st;
     responseSuccessHeader_statusDescription := responseSuccessHeader_statusDescription st;
     successHeaders := successHeaders st;
     response_body := response_body st;
     failResponse_status := s;
     failResponse_statusDescription := d;
     failResponse_body := JSON_stringify [("errorCode", c); ("errorMsg", m)];
     failHeaders := failHeaders st |}.

(** [response.body = b] *)
Definition set_body (b : string) (st : Store) : Store :=
  {| responseSuccessHeader_status := responseSuccessHeader_status st;
     responseSuccessHeader_statusDescription := responseSuccessHeader_statusDescription st;
     successHeaders := successHeaders st;
     response_body := b;
     failResponse_status := failResponse_status st;
     failResponse_statusDescription := failResponse_statusDescription st;
     failResponse_body := failResponse_body st;
     failHeaders := failHeaders st |}.

(** [response.headers[k] = [h]], and equally
    [responseSuccessHeader.headers[k] = [h]]: one object. *)
Definition set_header (k : string) (h : Header) (st : Store) : Store :=
  {| responseSuccessHeader_status := responseSuccessHeader_status st;
     responseSuccessHeader_statusDescription := responseSuccessHeader_statusDescription st;
     successHeaders := <[k := [h]]> (successHeaders st);
     response_body := response_body st;
     failResponse_status := failResponse_status st;
     failResponse_statusDescription := failResponse_statusDescription st;
     failResponse_body := failResponse_body st;
     failHeaders := failHeaders st |}.

(** [responseSuccessHeader.status = '302';
    responseSuccessHeader.statusDescription = 'Found'] *)
Definition set_found (st : Store) : Store :=
  {| responseSuccessHeader_status := "302";
     responseSuccessHeader_statusDescription := "Found";
     successHeaders := successHeaders st;
     response_body := response_body st;
     failResponse_status := failResponse_status st;
     failResponse_statusDescription := failResponse_statusDescription st;
     failResponse_body := failResponse_body st;
     failHeaders := failHeaders st |}.

(** The object [callback(null, failResponse)] passes. *)
Definition failResponse (st : Store) : Response :=
  {| status := failResponse_status st;
     statusDescription := failResponse_statusDescription st;
     headers := failHeaders st;
     bodyEncoding := Some text;
     body := Some (failResponse_body st) |}.

(** The object [callback(null, response)] passes. *)
Definition response (st : Store) : Response :=
  {| status := "200";
     statusDescription := "OK";
     headers := successHeaders st;
     bodyEncoding := Some base64;
     body := Some (response_body st) |}.

(** [{ ...responseSuccessHeader }] *)
Definition responseSuccessHeader (st : Store) : Response :=
  {| status := responseSuccessHeader_status st;
     statusDescription := responseSuccessHeader_statusDescription st;
     headers := successHeaders st;
     bodyEncoding := None;
     body := None |}.

(** *** The request, as the handler parses it *)
Record Request : Type := {
  pathParse : list string;     (* [URIPath.dir.split('/')] *)
  base : string;               (* [URIPath.base] *)
  ext : string;
  bucketName : string
}.

(** [pathParse[2]] *)
Definition profileName (rq : Request) : option string := nth_error (pathParse rq) 2.

Definition parse_request (uri : string) : option Request :=
  match decodeURIComponent uri with
  | None => None
  | Some p =>
      let URIPath := Path.parse p in
      let pathParse := split "/"%char (Path.dir URIPath) in
      Some {| pathParse := pathParse;
              base := Path.base URIPath;
              ext := toLowerCase (remove_first "."%char (Path.ext URIPath));
              bucketName :=
                match nth_error pathParse 2 with
                | Some "profile" => BUCKET_profile
                | _ => BUCKET_image
                end |}
  end.

(** [`${polyfillHost}/prod/image/${pathParse[2]}/${decodeURI(URIPath.base)}`] *)
Definition location (rq : Request) : option string :=
  match decodeURI (base rq) with
  | Some filename =>
      Some (polyfillHost ++ "/prod/image/" ++ ToPropertyKey (profileName rq)
              ++ "/" ++ filename)
  | None => None
  end.

(** The redirect block, written three times in the source (timer, size
    check before the resize, size check after it). *)
Definition redirect (rq : Request) (st : Store) : Store * Completion :=
  let st1 := set_found st in
  match location rq with
  | Some l =>
      let st2 := set_header "location" {| key := "Location"; value := l |} st1 in
      (st2, Respond (responseSuccessHeader st2))
  | None => (st1, Uncaught "URIError")
  end.

(** *** Tasks of the event loop

    The handler returns before S3 answers; what runs later is a task:
    the timer set by [setTimeout], the callback given to
    [S3.getObject], the continuation of the Sharp promise.  Each closes
    over the parsed request. *)
Inductive Task : Type :=
| TimerFires (rq : Request)
| S3Responds (rq : Request) (err : option S3Error) (data : option S3Data)
| SharpSettles (rq : Request) (o : SharpOutcome).

Record Loop : Type := {
  store : Store;
  queue : list (nat * Task);          (* pending tasks, by due time (ms) *)
  log : list (nat * Completion)       (* completions signalled so far, oldest first *)
}.

Definition is_timer (k : Task) : bool :=
  match k with
  | TimerFires _ => true
  | _ => false
  end.

Fixpoint enqueue (t : nat) (k : Task) (q : list (nat * Task)) : list (nat * Task) :=
  match q with
  | [] => [(t, k)]
  | (t', k') :: q' =>
      if (t' <=? t)%nat then (t', k') :: enqueue t k q' else (t, k) :: q
  end.

Definition schedule (t : nat) (k : Task) (l : Loop) : Loop :=
  {| store := store l; queue := enqueue t k (queue l); log := log l |}.

(** [setTimeout(..., 5 * 1000)] *)
Definition setTimeout (rq : Request) (l : Loop) : Loop :=
  schedule (5 * 1000) (TimerFires rq) l.

(** [clearTimeout(timer)] *)
Definition clearTimeout (l : Loop) : Loop :=
  {| store := store l;
     queue := List.filter (fun e => negb (is_timer (snd e))) (queue l);
     log := log l |}.

Definition put (st : Store) (l : Loop) : Loop :=
  {| store := st; queue := queue l; log := log l |}.

Definition callback (now : nat) (c : Completion) (l : Loop) : Loop :=
  {| store := store l; queue := queue l; log := log l ++ [(now, c)] |}.

(** Fill [failResponse] and pass it to the callback. *)
Definition fail (s d c m : string) (now : nat) (l : Loop) : Loop :=
  let st := set_fail s d c m (store l) in
  callback now (Respond (failResponse st)) (put st l).

(** *** The continuation of the Sharp promise ([.then] and [.catch]) *)
Definition sharp_settled (rq : Request) (now : nat) (o : SharpOutcome) (l : Loop) : Loop :=
  match o with
  | Resolves resizedImage =>
      let st := set_body (toString_base64 resizedImage) (store l) in
      if String_length (response_body st) >? limit then
        match redirect rq st with
        | (st', Uncaught e) => callback now (Fail e) (put st' l)
        | (st', c) => callback now c (put st' l)
        end
      else
        let st' := set_header "content-type"
                     {| key := "Content-Type"; value := "image/webp" |} st in
        callback now (Respond (response st')) (put st' l)
  | Rejects error => callback now (Fail error) l
  end.

(** [['gif', 'webp'].includes(ext)] *)
Definition animated (rq : Request) : bool :=
  String.eqb (ext rq) "gif" || String.eqb (ext rq) "webp".

(** [size && size.type === 'webp' && (x > size.width || y > size.height)] *)
Definition no_upscale (size : option ImageInfo) (t : Target) : bool :=
  match size with
  | Some sz =>
      String.eqb (type sz) "webp" && (gt (x t) (width sz) || gt (y t) (height sz))
  | None => false
  end.

(** [err && err.statusCode === 404] *)
Definition not_found (err : option S3Error) : bool :=
  match err with
  | Some e => statusCode e =? 404
  | None => false
  end.

(** *** The callback given to [S3.getObject] *)
Definition s3_callback (env : Env) (rq : Request) (now : nat)
    (err : option S3Error) (data : option S3Data) (l : Loop) : Loop :=
  if not_found err then
    fail "404" "Not Found" "404" "Not Found" now l
  else
    match data with
    | None => fail "500" "" "500" "The file is not normal." now l
    | Some d =>
        match Body d with
        | None => fail "404" "Not Found" "404" "Not Found" now l
        | Some Body =>
            if String.eqb (ext rq) "svg" then
              let st := set_header "content-type"
                          {| key := "Content-Type"; value := "image/svg+xml" |}
                          (set_body (toString_base64 Body) (store l)) in
              callback now (Respond (response st)) (put st l)
            else
              match sizeOf env Body with
              | SizeThrows e => callback now (Uncaught e) l
              | SizeReturns size =>
                  let t := target_of (get imageType (ToPropertyKey (profileName rq))) in
                  if no_upscale size t then
                    if Buffer_length Body >? limit then
                      let (st, c) := redirect rq (store l) in
                      callback now c (put st l)
                    else
                      let st := set_header "content-type"
                                  {| key := "Content-Type"; value := "image/webp" |}
                                  (set_body (toString_base64 Body) (store l)) in
                      callback now (Respond (response st)) (put st l)
                  else
                    schedule (now + Sharp_latency env)
                      (SharpSettles rq (Sharp env Body (animated rq) (x t) (y t))) l
              end
        end
    end.

(** *** The body of [try { ... }], run when the handler is invoked *)
Definition try_block (ev : Event) (env : Env) (rq : Request) (l : Loop) : Loop :=
  if String.eqb (origin_status ev) "404" then
    fail "404" "Not Found" "404" "Not Found" 0 l
  else if missing (get imageType (ToPropertyKey (profileName rq))) then
    fail "404" "Not Found" "404" "Not Found" 0 l
  else if missing (get validType (ext rq)) then
    fail "403" "Unsupported extension." "403" "Unsupported extension." 0 l
  else
    match decodeURI (base rq) with
    | None => callback 0 (Fail "URIError") l
    | Some Key =>
        match S3_getObject env (bucketName rq) Key with
        | S3Throws e => callback 0 (Fail e) l
        | S3Calls err data => schedule (S3_latency env) (S3Responds rq err data) l
        end
    end.

(** *** [handler]: the part that runs before it returns *)
Definition handler (ev : Event) (env : Env) : Loop :=
  let l := {| store := init ev; queue := []; log := [] |} in
  match parse_request (uri ev) with
  | None => callback 0 (Uncaught "URIError") l
  | Some rq =>
      (* try { ... } finally { clearTimeout(timer) } *)
      clearTimeout (try_block ev env rq (setTimeout rq l))
  end.

(** *** The event loop: run the pending tasks in the order they fall due *)
Definition exec (env : Env) (now : nat) (k : Task) (l : Loop) : Loop :=
  match k with
  | TimerFires rq =>
      let (st, c) := redirect rq (store l) in
      callback now c (put st l)
  | S3Responds rq err data => s3_callback env rq now err data l
  | SharpSettles rq o => sharp_settled rq now o l
  end.

Fixpoint event_loop (fuel : nat) (env : Env) (l : Loop) : Loop :=
  match fuel with
  | O => l
  | S fuel' =>
      match queue l with
      | [] => l
      | (t, k) :: q =>
          event_loop fuel' env
            (exec env t k {| store := store l; queue := q; log := log l |})
      end
  end.

(** One invocation: the handler, then the tasks it left (a timer, the
    S3 callback, the Sharp continuation: three at most). *)
Definition run (ev : Event) (env : Env) : Loop :=
  event_loop 3 env (handler ev env).

(** The completions signalled, with their times. *)
Definition trace (ev : Event) (env : Env) : list (nat * Completion) :=
  log (run ev env).

(** The Lambda runtime delivers the first completion it is given. *)
Definition delivered (ev : Event) (env : Env) : option Completion :=
  match trace ev env with
  | [] => None
  | (_, c) :: _ => Some c
  end.

(** The request passes the three checks of the try block, S3 is asked
    for [Key] and calls back with [err] and [data]. *)
Definition fetches (ev : Event) (env : Env) (rq : Request) (Key : string)
    (err : option S3Error) (data : option S3Data) : Prop :=
  parse_request (uri ev) = Some rq
  /\ String.eqb (origin_status ev) "404" = false
  /\ missing (get imageType (ToPropertyKey (profileName rq))) = false
  /\ missing (get validType (ext rq)) = false
  /\ decodeURI (base rq) = Some Key
  /\ S3_getObject env (bucketName rq) Key = S3Calls err data.

(** The [Location] of a redirect for the profile segment [p] and the
    decoded file name [f]. *)
Definition fallback (p : option string) (f : string) : string :=
  polyfillHost ++ "/prod/image/" ++ ToPropertyKey p ++ "/" ++ f.

(** The header every cacheable response carries. *)
Definition max_age : list Header :=
  [ {| key := "Cache-Control"; value := "max-age=31536000" |} ].

Definition cacheable (r : Response) : Prop :=
  headers r !! "cache-control" = Some max_age.

Definition no_cache : list Header :=
  [ {| key := "Cache-Control"; value := "no-cache" |} ].

(** A redirect, if that is what is signalled, is cacheable. *)
Definition signal_ok (c : Completion) : Prop :=
  match c with
  | Respond r => status r = "302" -> cacheable r
  | _ => True
  end.

(** The shared header object keeps its [cache-control] entry, and every
    302 signalled so far carries it. *)
Definition cache_invariant (l : Loop) : Prop :=
  successHeaders (store l) !! "cache-control" = Some max_age
  /\ List.Forall (fun e : nat * Completion => signal_ok (snd e)) (log l).

(** What the callbacks can signal once a body is present: a 200, a 302
    or an error, never [failResponse]. *)
Definition accepted (c : Completion) : Prop :=
  match c with
  | Respond r => status r = "200" \/ status r = "302"
  | _ => True
  end.

(** The failure bodies the checks write. *)
Definition not_found_body : string :=
  JSON_stringify [("errorCode", "404"); ("errorMsg", "Not Found")].

Definition unsupported_body : string :=
  JSON_stringify [("errorCode", "403"); ("errorMsg", "Unsupported extension.")].

Definition not_normal_body : string :=
  JSON_stringify [("errorCode", "500"); ("errorMsg", "The file is not normal.")].

(** *** The responses of an invocation, as values *)

(** [failResponse] after a check has filled it. *)
Definition refusal (ev : Event) (s d c m : string) : Response :=
  failResponse (set_fail s d c m (init ev)).

(** [response] with the body [b] and the content type [ctype]. *)
Definition inline (ev : Event) (ctype b : string) : Response :=
  response (set_header "content-type" {| key := "Content-Type"; value := ctype |}
              (set_body b (init ev))).

(** The redirect to the fallback service, built on the store [st]. *)
Definition redirection (rq : Request) (Key : string) (st : Store) : Response :=
  responseSuccessHeader
    (set_header "location"
       {| key := "Location"; value := fallback (profileName rq) Key |}
       (set_found st)).

(** The stores a redirect is built on: [init], with or without a body
    written into [response]. *)
Definition fresh (ev : Event) (st : Store) : Prop :=
  successHeaders st = successHeaders (init ev).

(** The request passes the three checks of the try block. *)
Definition passes_checks (ev : Event) (rq : Request) : Prop :=
  parse_request (uri ev) = Some rq
  /\ String.eqb (origin_status ev) "404" = false
  /\ missing (get imageType (ToPropertyKey (profileName rq))) = false
  /\ missing (get validType (ext rq)) = false.

(** The target box the handler reads for a request. *)
Definition target (rq : Request) : Target :=
  target_of (get imageType (ToPropertyKey (profileName rq))).

(** Every way an invocation ends: the time and the completion, path by
    path through [handler], [s3_callback] and [sharp_settled]. *)
Inductive answers (ev : Event) (env : Env) : nat -> Completion -> Prop :=
| answers_uri_error :
    parse_request (uri ev) = None ->
    answers ev env 0 (Uncaught "URIError")
| answers_upstream_404 rq :
    parse_request (uri ev) = Some rq ->
    String.eqb (origin_status ev) "404" = true ->
    answers ev env 0 (Respond (refusal ev "404" "Not Found" "404" "Not Found"))
| answers_profile rq :
    parse_request (uri ev) = Some rq ->
    missing (get imageType (ToPropertyKey (profileName rq))) = true ->
    answers ev env 0 (Respond (refusal ev "404" "Not Found" "404" "Not Found"))
| answers_extension rq :
    parse_request (uri ev) = Some rq ->
    String.eqb (origin_status ev) "404" = false ->
    missing (get imageType (ToPropertyKey (profileName rq))) = false ->
    missing (get validType (ext rq)) = true ->
    answers ev env 0
      (Respond (refusal ev "403" "Unsupported extension." "403" "Unsupported extension."))
| answers_key_error rq :
    passes_checks ev rq ->
    decodeURI (base rq) = None ->
    answers ev env 0 (Fail "URIError")
| answers_s3_throws rq Key e :
    passes_checks ev rq ->
    decodeURI (base rq) = Some Key ->
    S3_getObject env (bucketName rq) Key = S3Throws e ->
    answers ev env 0 (Fail e)
| answers_store_404 rq Key err data :
    fetches ev env rq Key err data ->
    not_found err = true ->
    answers ev env (S3_latency env)
      (Respond (refusal ev "404" "Not Found" "404" "Not Found"))
| answers_no_data rq Key err :
    fetches ev env rq Key err None ->
    not_found err = false ->
    answers ev env (S3_latency env)
      (Respond (refusal ev "500" "" "500" "The file is not normal."))
| answers_no_body rq Key err :
    fetches ev env rq Key err (Some {| Body := None |}) ->
    not_found err = false ->
    answers ev env (S3_latency env)
      (Respond (refusal ev "404" "Not Found" "404" "Not Found"))
| answers_svg rq Key err b :
    fetches ev env rq Key err (Some {| Body := Some b |}) ->
    not_found err = false ->
    ext rq = "svg" ->
    answers ev env (S3_latency env)
      (Respond (inline ev "image/svg+xml" (toString_base64 b)))
| answers_probe_throws rq Key err b e :
    fetches ev env rq Key err (Some {| Body := Some b |}) ->
    not_found err = false ->
    String.eqb (ext rq) "svg" = false ->
    sizeOf env b = SizeThrows e ->
    answers ev env (S3_latency env) (Uncaught e)
| answers_pass rq Key err b size :
    fetches ev env rq Key err (Some {| Body := Some b |}) ->
    not_found err = false ->
    String.eqb (ext rq) "svg" = false ->
    sizeOf env b = SizeReturns size ->
    no_upscale size (target rq) = true ->
    Buffer_length b <= limit ->
    answers ev env (S3_latency env)
      (Respond (inline ev "image/webp" (toString_base64 b)))
| answers_pass_redirect rq Key err b size :
    fetches ev env rq Key err (Some {| Body := Some b |}) ->
    not_found err = false ->
    String.eqb (ext rq) "svg" = false ->
    sizeOf env b = SizeReturns size ->
    no_upscale size (target rq) = true ->
    limit < Buffer_length b ->
    answers ev env (S3_latency env) (Respond (redirection rq Key (init ev)))
| answers_resize rq Key err b size out :
    fetches ev env rq Key err (Some {| Body := Some b |}) ->
    not_found err = false ->
    String.eqb (ext rq) "svg" = false ->
    sizeOf env b = SizeReturns size ->
    no_upscale size (target rq) = false ->
    Sharp env b (animated rq) (x (target rq)) (y (target rq)) = Resolves out ->
    String_length (toString_base64 out) <= limit ->
    answers ev env (S3_latency env + Sharp_latency env)
      (Respond (inline ev "image/webp" (toString_base64 out)))
| answers_resize_redirect rq Key err b size out :
    fetches ev env rq Key err (Some {| Body := Some b |}) ->
    not_found err = false ->
    String.eqb (ext rq) "svg" = false ->
    sizeOf env b = SizeReturns size ->
    no_upscale size (target rq) = false ->
    Sharp env b (animated rq) (x (target rq)) (y (target rq)) = Resolves out ->
    limit < String_length (toString_base64 out) ->
    answers ev env (S3_latency env + Sharp_latency env)
      (Respond (redirection rq Key (set_body (toString_base64 out) (init ev))))
| answers_resize_rejects rq Key err b size e :
    fetches ev env rq Key err (Some {| Body := Some b |}) ->
    not_found err = false ->
    String.eqb (ext rq) "svg" = false ->
    sizeOf env b = SizeReturns size ->
    no_upscale size (target rq) = false ->
    Sharp env b (animated rq) (x (target rq)) (y (target rq)) = Rejects e ->
    answers ev env (S3_latency env + Sharp_latency env) (Fail e).

End Resizer.

(** ** Concrete invocations *)
Module Scenario.
Import JS Resizer.

(** An origin response with status 200 and no headers, for the path [u]. *)
Definition event (u : string) : Event :=
  {| uri := u;
     origin_status := "200";
     origin_statusDescription := "OK";
     origin_headers := ∅ |}.

(** A bucket holding one object, [b] under the key [k]; any other key
    is reported missing. *)
Definition bucket (k : string) (b : Buffer) (Bucket Key : string) : S3Outcome :=
  if String.eqb Key k
  then S3Calls None (Some {| Body := Some b |})
  else S3Calls (Some {| statusCode := 404 |}) None.

(** S3 answers after [ms]; the probe reports [info] for every image;
    the codec answers [out] after 40 ms. *)
Definition world (k : string) (b : Buffer) (ms : nat) (info : ImageInfo)
    (out : Buffer) : Env :=
  {| S3_getObject := bucket k b;
     S3_latency := ms;
     sizeOf := fun _ => SizeReturns (Some info);
     Sharp := fun _ _ _ _ => Resolves out;
     Sharp_latency := 40 |}.

(** "<svg/>" *)
Definition svg_bytes : Buffer :=
  [Byte.x3c; Byte.x73; Byte.x76; Byte.x67; Byte.x2f; Byte.x3e].

(** The first bytes of a RIFF/WEBP file, standing for a source image. *)
Definition source_bytes : Buffer :=
  [Byte.x52; Byte.x49; Byte.x46; Byte.x46; Byte.x24; Byte.x00; Byte.x00; Byte.x00;
   Byte.x57; Byte.x45; Byte.x42; Byte.x50].

(** What the codec writes: other bytes than the source. *)
Definition encoded_bytes : Buffer :=
  [Byte.x52; Byte.x49; Byte.x46; Byte.x46; Byte.x10; Byte.x00; Byte.x00; Byte.x00;
   Byte.x57; Byte.x45; Byte.x42; Byte.x50; Byte.x56; Byte.x50; Byte.x38; Byte.x4c].

(** 786,433 bytes: under the ceiling as bytes, over it as base64 text. *)
Definition large_bytes : Buffer := repeat Byte.x00 (N.to_nat 786433).

(** S3 fails with a status other than 404 and hands over no data. *)
Definition outage : Env :=
  {| S3_getObject := fun _ _ => S3Calls (Some {| statusCode := 503 |}) None;
     S3_latency := 20;
     sizeOf := fun _ => SizeReturns None;
     Sharp := fun _ _ _ _ => Rejects "unreachable";
     Sharp_latency := 40 |}.

(** 1,048,577 bytes: one over the ceiling. *)
Definition oversize_bytes : Buffer := repeat Byte.x00 (N.to_nat 1048577).

(** The bucket of [world], with a codec that rejects. *)
Definition broken_codec (k : string) (b : Buffer) (info : ImageInfo) : Env :=
  {| S3_getObject := bucket k b;
     S3_latency := 20;
     sizeOf := fun _ => SizeReturns (Some info);
     Sharp := fun _ _ _ _ => Rejects "Input buffer contains unsupported image format";
     Sharp_latency := 40 |}.

(** An S3 client that throws when it is called. *)
Definition broken_client : Env :=
  {| S3_getObject := fun _ _ => S3Throws "MissingRequiredParameter";
     S3_latency := 20;
     sizeOf := fun _ => SizeReturns None;
     Sharp := fun _ _ _ _ => Rejects "unreachable";
     Sharp_latency := 40 |}.

(** An upstream response that is itself a 404, with one header. *)
Definition upstream_404 (u : string) : Event :=
  {| uri := u;
     origin_status := "404";
     origin_statusDescription := "Not Found";
     origin_headers := {[ "server" := [ {| key := "Server"; value := "AmazonS3" |} ] ]} |}.

(** An upstream 200 that carries an [etag] header. *)
Definition tagged (u : string) : Event :=
  {| uri := u;
     origin_status := "200";
     origin_statusDescription := "OK";
     origin_headers := {[ "etag" := [ {| key := "ETag"; value := "abc" |} ] ]} |}.

Definition png_info : ImageInfo := {| width := 800; height := 600; type := "png" |}.
Definition svg_info : ImageInfo := {| width := 100; height := 100; type := "svg" |}.
Definition big_webp_info : ImageInfo := {| width := 4000; height := 3000; type := "webp" |}.
Definition exact_webp_info : ImageInfo := {| width := 300; height := 300; type := "webp" |}.
Definition small_webp_info : ImageInfo := {| width := 120; height := 90; type := "webp" |}.

End Scenario.

(** * Properties *)

Import JS Resizer.

(** ** Lists taken three elements at a time, as base64 does *)
Lemma list_ind3 {A : Type} (P : list A -> Prop) :
  P [] ->
  (forall a, P [a]) ->
  (forall a b, P [a; b]) ->
  (forall a b c l, P l -> P (a :: b :: c :: l)) ->
  forall l, P l.
Proof.
  intros H0 H1 H2 H3.
  fix IH 1.
  intros [|a [|b [|c l]]].
  - exact H0.
  - apply H1.
  - apply H2.
  - apply H3, IH.
Qed.

(** Base64 writes four characters for every three bytes, the last group
    padded. *)
Lemma toString_base64_length (b : Buffer) :
  String_length (toString_base64 b) = 4 * ((Buffer_length b + 2) / 3).
Proof.
  unfold String_length, Buffer_length.
  induction b as [| a | a c | a c d l IH] using list_ind3; try reflexivity.
  change (toString_base64 (a :: c :: d :: l))
    with (String (base64_digit (N.land (N.shiftr (N.lor (N.lor (N.shiftl (octet a) 16) (N.shiftl (octet c) 8)) (octet d)) 18) 63))
            (String (base64_digit (N.land (N.shiftr (N.lor (N.lor (N.shiftl (octet a) 16) (N.shiftl (octet c) 8)) (octet d)) 12) 63))
               (String (base64_digit (N.land (N.shiftr (N.lor (N.lor (N.shiftl (octet a) 16) (N.shiftl (octet c) 8)) (octet d)) 6) 63))
                  (String (base64_digit (N.land (N.lor (N.lor (N.shiftl (octet a) 16) (N.shiftl (octet c) 8)) (octet d)) 63))
                     (toString_base64 l))))).
  cbn [String.length length].
  rewrite !Nat2Z.inj_succ, IH.
  replace (Z.succ (Z.succ (Z.succ (Z.of_nat (length l)))) + 2)
    with (1 * 3 + (Z.of_nat (length l) + 2)) by lia.
  rewrite Z.div_add_l by lia.
  lia.
Qed.

(** The text is never shorter than the bytes it encodes. *)
Lemma toString_base64_longer (b : Buffer) :
  Buffer_length b <= String_length (toString_base64 b).
Proof.
  rewrite toString_base64_length.
  unfold Buffer_length.
  pose proof (Z.div_mod (Z.of_nat (length b) + 2) 3 ltac:(lia)) as Hd.
  pose proof (Z.mod_pos_bound (Z.of_nat (length b) + 2) 3 ltac:(lia)) as Hm.
  lia.
Qed.

(** ** The timer *)

(** Scheduling a task that is not the timer next to the timer and then
    clearing the timer leaves that task alone. *)
Lemma clearTimeout_schedule (rq : Request) (t : nat) (k : Task) (st : Store)
    (lg : list (nat * Completion)) :
  is_timer k = false ->
  clearTimeout (schedule t k (setTimeout rq {| store := st; queue := []; log := lg |}))
  = {| store := st; queue := [(t, k)]; log := lg |}.
Proof.
  intros Hk.
  unfold clearTimeout, schedule, setTimeout, schedule.
  cbn [store queue log enqueue].
  generalize (5 * 1000)%nat; intros d.
  destruct (d <=? t)%nat; cbn [List.filter snd is_timer negb queue store log];
    rewrite Hk; reflexivity.
Qed.

Lemma clearTimeout_callback (now : nat) (c : Completion) (l : Loop) :
  clearTimeout (callback now c l) = callback now c (clearTimeout l).
Proof. reflexivity. Qed.

Lemma clearTimeout_fail (s d c m : string) (now : nat) (l : Loop) :
  clearTimeout (fail s d c m now l) = fail s d c m now (clearTimeout l).
Proof. reflexivity. Qed.

Lemma clearTimeout_setTimeout (rq : Request) (st : Store) (lg : list (nat * Completion)) :
  clearTimeout (setTimeout rq {| store := st; queue := []; log := lg |})
  = {| store := st; queue := []; log := lg |}.
Proof. reflexivity. Qed.

(** When the handler returns, no timer is pending: whatever the try block
    did, [finally] has cleared it. *)
Lemma handler_clears_timer (ev : Event) (env : Env) :
  Forall (fun e => is_timer (snd e) = false) (queue (handler ev env)).
Proof.
  unfold handler.
  destruct (parse_request (uri ev)) as [rq|]; [| constructor].
  unfold clearTimeout; cbn [queue].
  apply List.Forall_forall. intros e He.
  apply List.filter_In in He. destruct He as [_ He].
  now apply negb_true_iff in He.
Qed.

(** ** From the invocation to the S3 callback *)

Lemma handler_fetches (ev : Event) (env : Env) (rq : Request) (Key : string)
    (err : option S3Error) (data : option S3Data) :
  fetches ev env rq Key err data ->
  handler ev env
  = {| store := init ev;
       queue := [(S3_latency env, S3Responds rq err data)];
       log := [] |}.
Proof.
  intros (Hp & Hs & Hi & Hv & Hk & Hg).
  unfold handler. rewrite Hp.
  unfold try_block. rewrite Hs, Hi, Hv, Hk, Hg.
  now apply clearTimeout_schedule.
Qed.

Lemma run_fetches (ev : Event) (env : Env) (rq : Request) (Key : string)
    (err : option S3Error) (data : option S3Data) :
  fetches ev env rq Key err data ->
  run ev env
  = event_loop 2 env
      (s3_callback env rq (S3_latency env) err data
         {| store := init ev; queue := []; log := [] |}).
Proof.
  intros H. unfold run. rewrite (handler_fetches _ _ _ _ _ _ H). reflexivity.
Qed.

Lemma fetches_location (ev : Event) (env : Env) (rq : Request) (Key : string)
    (err : option S3Error) (data : option S3Data) :
  fetches ev env rq Key err data ->
  location rq = Some (fallback (profileName rq) Key).
Proof.
  intros (_ & _ & _ & _ & Hk & _). unfold location. now rewrite Hk.
Qed.

(** The S3 callback, case by case. *)
Lemma s3_callback_not_found env rq now err data l :
  not_found err = true ->
  s3_callback env rq now err data l = fail "404" "Not Found" "404" "Not Found" now l.
Proof. intros H. unfold s3_callback. now rewrite H. Qed.

Lemma s3_callback_no_data env rq now err l :
  not_found err = false ->
  s3_callback env rq now err None l
  = fail "500" "" "500" "The file is not normal." now l.
Proof. intros H. unfold s3_callback. now rewrite H. Qed.

Lemma s3_callback_no_body env rq now err l :
  not_found err = false ->
  s3_callback env rq now err (Some {| Body := None |}) l
  = fail "404" "Not Found" "404" "Not Found" now l.
Proof. intros H. unfold s3_callback. now rewrite H. Qed.

Lemma s3_callback_svg env rq now err b l :
  not_found err = false ->
  ext rq = "svg" ->
  s3_callback env rq now err (Some {| Body := Some b |}) l
  = let st := set_header "content-type"
                {| key := "Content-Type"; value := "image/svg+xml" |}
                (set_body (toString_base64 b) (store l)) in
    callback now (Respond (response st)) (put st l).
Proof. intros H He. unfold s3_callback. rewrite H, He. reflexivity. Qed.

Lemma s3_callback_pass env rq now err b size l :
  not_found err = false ->
  String.eqb (ext rq) "svg" = false ->
  sizeOf env b = SizeReturns size ->
  no_upscale size (target_of (get imageType (ToPropertyKey (profileName rq)))) = true ->
  s3_callback env rq now err (Some {| Body := Some b |}) l
  = if Buffer_length b >? limit then
      let (st, c) := redirect rq (store l) in callback now c (put st l)
    else
      let st := set_header "content-type"
                  {| key := "Content-Type"; value := "image/webp" |}
                  (set_body (toString_base64 b) (store l)) in
      callback now (Respond (response st)) (put st l).
Proof.
  intros H He Hs Hn. unfold s3_callback. cbn [Body]. rewrite H, He, Hs, Hn. reflexivity.
Qed.

Lemma s3_callback_resize env rq now err b size l :
  not_found err = false ->
  String.eqb (ext rq) "svg" = false ->
  sizeOf env b = SizeReturns size ->
  no_upscale size (target_of (get imageType (ToPropertyKey (profileName rq)))) = false ->
  s3_callback env rq now err (Some {| Body := Some b |}) l
  = let t := target_of (get imageType (ToPropertyKey (profileName rq))) in
    schedule (now + Sharp_latency env)
      (SharpSettles rq (Sharp env b (animated rq) (x t) (y t))) l.
Proof.
  intros H He Hs Hn. unfold s3_callback. cbn [Body]. rewrite H, He, Hs, Hn. reflexivity.
Qed.

(** The Sharp continuation decides on the length of the base64 text. *)
Lemma sharp_settled_small rq now resizedImage l :
  String_length (toString_base64 resizedImage) <= limit ->
  sharp_settled rq now (Resolves resizedImage) l
  = let st := set_header "content-type"
                {| key := "Content-Type"; value := "image/webp" |}
                (set_body (toString_base64 resizedImage) (store l)) in
    callback now (Respond (response st)) (put st l).
Proof.
  intros H. unfold sharp_settled. cbn [response_body set_body].
  destruct (Z.gtb_spec (String_length (toString_base64 resizedImage)) limit); [lia|].
  reflexivity.
Qed.

Lemma sharp_settled_large rq now resizedImage l loc :
  limit < String_length (toString_base64 resizedImage) ->
  location rq = Some loc ->
  sharp_settled rq now (Resolves resizedImage) l
  = let st := set_header "location" {| key := "Location"; value := loc |}
                (set_found (set_body (toString_base64 resizedImage) (store l))) in
    callback now (Respond (responseSuccessHeader st)) (put st l).
Proof.
  intros H Hl. unfold sharp_settled. cbn [response_body set_body].
  destruct (Z.gtb_spec (String_length (toString_base64 resizedImage)) limit); [|lia].
  unfold redirect. rewrite Hl. reflexivity.
Qed.

(** ** The event loop ends *)

Lemma sharp_settled_queue (rq : Request) (now : nat) (o : SharpOutcome) (l : Loop) :
  queue (sharp_settled rq now o l) = queue l.
Proof.
  unfold sharp_settled. destruct o as [resizedImage | error]; [| reflexivity].
  destruct (String_length _ >? limit); [| reflexivity].
  destruct (redirect rq _) as [st' c]. destruct c; reflexivity.
Qed.

(** After the S3 callback at most the Sharp continuation is pending. *)
Lemma s3_callback_queue (env : Env) (rq : Request) (now : nat) (err : option S3Error)
    (data : option S3Data) (st : Store) (lg : list (nat * Completion)) :
  let l := s3_callback env rq now err data {| store := st; queue := []; log := lg |} in
  queue l = [] \/ exists (t : nat) (o : SharpOutcome), queue l = [(t, SharpSettles rq o)].
Proof.
  unfold s3_callback.
  destruct (not_found err); [left; reflexivity |].
  destruct data as [[[b|]]|]; cbn [Body]; try (left; reflexivity).
  destruct (String.eqb (ext rq) "svg"); [left; reflexivity |].
  destruct (sizeOf env b) as [e | size]; [left; reflexivity |].
  destruct (no_upscale size _).
  - destruct (Buffer_length b >? limit); [| left; reflexivity].
    cbn [store]. destruct (redirect rq st) as [st' c]. left; reflexivity.
  - right. do 2 eexists. reflexivity.
Qed.

(** When the handler returns at most the S3 callback is pending. *)
Lemma handler_queue (ev : Event) (env : Env) :
  queue (handler ev env) = []
  \/ exists (rq : Request) (err : option S3Error) (data : option S3Data),
       handler ev env
       = {| store := init ev;
            queue := [(S3_latency env, S3Responds rq err data)];
            log := [] |}.
Proof.
  unfold handler. destruct (parse_request (uri ev)) as [rq|]; [| left; reflexivity].
  unfold try_block.
  destruct (String.eqb (origin_status ev) "404"); [left; reflexivity |].
  destruct (missing (get imageType _)); [left; reflexivity |].
  destruct (missing (get validType _)); [left; reflexivity |].
  destruct (decodeURI (base rq)) as [Key|]; [| left; reflexivity].
  destruct (S3_getObject env (bucketName rq) Key) as [e | err data];
    [left; reflexivity |].
  right. exists rq, err, data. now apply clearTimeout_schedule.
Qed.

(** Three turns of the loop are enough: no task is left. *)
Lemma run_drains (ev : Event) (env : Env) : queue (run ev env) = [].
Proof.
  unfold run.
  destruct (handler_queue ev env) as [Hq | (rq & err & data & Hh)].
  - cbn [event_loop]. now rewrite Hq.
  - rewrite Hh. cbn [event_loop queue store log exec].
    destruct (s3_callback_queue env rq (S3_latency env) err data (init ev) [])
      as [Hq | (t & o & Hq)]; cbv zeta in Hq; rewrite Hq.
    + exact Hq.
    + cbn [exec]. rewrite sharp_settled_queue. cbn [queue].
      apply sharp_settled_queue.
Qed.

(** ** The whole invocation, path by path *)
Section Paths.
Variables (ev : Event) (env : Env) (rq : Request) (Key : string).
Variables (err : option S3Error) (b : Buffer).
Hypothesis Hfetch : fetches ev env rq Key err (Some {| Body := Some b |}).
Hypothesis Herr : not_found err = false.

Let webp : Header := {| key := "Content-Type"; value := "image/webp" |}.
Let target : Target := target_of (get imageType (ToPropertyKey (profileName rq))).

(** The vector branch. *)
Lemma trace_svg :
  ext rq = "svg" ->
  trace ev env
  = [(S3_latency env,
      Respond (response
                 (set_header "content-type"
                    {| key := "Content-Type"; value := "image/svg+xml" |}
                    (set_body (toString_base64 b) (init ev)))))].
Proof.
  intros He. unfold trace. rewrite (run_fetches _ _ _ _ _ _ Hfetch).
  rewrite s3_callback_svg by assumption. reflexivity.
Qed.

(** The no-upscale branch, body within the ceiling. *)
Lemma trace_pass (size : option ImageInfo) :
  String.eqb (ext rq) "svg" = false ->
  sizeOf env b = SizeReturns size ->
  no_upscale size target = true ->
  Buffer_length b <= limit ->
  trace ev env
  = [(S3_latency env,
      Respond (response (set_header "content-type" webp
                           (set_body (toString_base64 b) (init ev)))))].
Proof.
  intros He Hs Hn Hb. unfold trace. rewrite (run_fetches _ _ _ _ _ _ Hfetch).
  rewrite (s3_callback_pass _ _ _ _ _ size) by assumption.
  destruct (Z.gtb_spec (Buffer_length b) limit); [lia |]. reflexivity.
Qed.

(** The no-upscale branch, body over the ceiling. *)
Lemma trace_pass_redirect (size : option ImageInfo) :
  String.eqb (ext rq) "svg" = false ->
  sizeOf env b = SizeReturns size ->
  no_upscale size target = true ->
  limit < Buffer_length b ->
  trace ev env
  = [(S3_latency env,
      Respond (responseSuccessHeader
                 (set_header "location"
                    {| key := "Location"; value := fallback (profileName rq) Key |}
                    (set_found (init ev)))))].
Proof.
  intros He Hs Hn Hb. unfold trace. rewrite (run_fetches _ _ _ _ _ _ Hfetch).
  rewrite (s3_callback_pass _ _ _ _ _ size) by assumption.
  destruct (Z.gtb_spec (Buffer_length b) limit); [| lia].
  unfold redirect. rewrite (fetches_location _ _ _ _ _ _ Hfetch). reflexivity.
Qed.

(** The resize branch, text within the ceiling. *)
Lemma trace_resize (size : option ImageInfo) (out : Buffer) :
  String.eqb (ext rq) "svg" = false ->
  sizeOf env b = SizeReturns size ->
  no_upscale size target = false ->
  Sharp env b (animated rq) (x target) (y target) = Resolves out ->
  String_length (toString_base64 out) <= limit ->
  trace ev env
  = [((S3_latency env + Sharp_latency env)%nat,
      Respond (response (set_header "content-type" webp
                           (set_body (toString_base64 out) (init ev)))))].
Proof.
  intros He Hs Hn Ho Hl. unfold trace. rewrite (run_fetches _ _ _ _ _ _ Hfetch).
  rewrite (s3_callback_resize _ _ _ _ _ size) by assumption.
  cbv zeta. unfold target in Ho. rewrite Ho.
  cbn [event_loop schedule queue enqueue store log exec].
  rewrite sharp_settled_small by assumption. reflexivity.
Qed.

(** The resize branch, text over the ceiling. *)
Lemma trace_resize_redirect (size : option ImageInfo) (out : Buffer) :
  String.eqb (ext rq) "svg" = false ->
  sizeOf env b = SizeReturns size ->
  no_upscale size target = false ->
  Sharp env b (animated rq) (x target) (y target) = Resolves out ->
  limit < String_length (toString_base64 out) ->
  trace ev env
  = [((S3_latency env + Sharp_latency env)%nat,
      Respond (responseSuccessHeader
                 (set_header "location"
                    {| key := "Location"; value := fallback (profileName rq) Key |}
                    (set_found (set_body (toString_base64 out) (init ev))))))].
Proof.
  intros He Hs Hn Ho Hl. unfold trace. rewrite (run_fetches _ _ _ _ _ _ Hfetch).
  rewrite (s3_callback_resize _ _ _ _ _ size) by assumption.
  cbv zeta. unfold target in Ho. rewrite Ho.
  cbn [event_loop schedule queue enqueue store log exec].
  rewrite (sharp_settled_large _ _ _ _ (fallback (profileName rq) Key));
    [reflexivity | assumption | exact (fetches_location _ _ _ _ _ _ Hfetch)].
Qed.

End Paths.

(** What is delivered is the first completion of the trace. *)
Lemma delivered_trace (ev : Event) (env : Env) (t : nat) (c : Completion) :
  trace ev env = [(t, c)] -> delivered ev env = Some c.
Proof. intros H. unfold delivered. now rewrite H. Qed.

(** ** Claims *)
Import Scenario.

(** Every request named in the scenarios reaches S3. *)
Ltac fetches_by_evaluation :=
  repeat (split; [reflexivity |]); reflexivity.

Lemma fetches_slow_svg :
  fetches (event "/image/original/logo.svg")
    (world "logo.svg" svg_bytes (6 * 1000) svg_info encoded_bytes)
    {| pathParse := [""; "image"; "original"]; base := "logo.svg"; ext := "svg";
       bucketName := BUCKET_image |}
    "logo.svg" None (Some {| Body := Some svg_bytes |}).
Proof. fetches_by_evaluation. Qed.

(** C2 (deadline).  The code does not keep the deadline: [finally] clears
    the timer as soon as the handler returns, which is before S3 has
    answered, so no timer is ever pending once the handler has returned.
    With an S3 answer after 6000 ms the handler returns with the S3
    callback pending, no timer and nothing signalled; nothing is signalled
    at 5000 ms, and the 200 of the pipeline is what is delivered at
    6000 ms. *)
Theorem C2_timer_cleared_when_handler_returns :
  (forall ev env, Forall (fun e => is_timer (snd e) = false) (queue (handler ev env)))
  /\ (exists (rq : Request) (data : option S3Data),
        handler (event "/image/original/logo.svg")
          (world "logo.svg" svg_bytes (6 * 1000) svg_info encoded_bytes)
        = {| store := init (event "/image/original/logo.svg");
             queue := [((6 * 1000)%nat, S3Responds rq None data)];
             log := [] |})
  /\ exists r : Response,
       trace (event "/image/original/logo.svg")
         (world "logo.svg" svg_bytes (6 * 1000) svg_info encoded_bytes)
       = [((6 * 1000)%nat, Respond r)]
       /\ status r = "200"
       /\ body r = Some (toString_base64 svg_bytes).
Proof.
  split; [exact handler_clears_timer |].
  split.
  - do 2 eexists. exact (handler_fetches _ _ _ _ _ _ fetches_slow_svg).
  - eexists. split; [| split].
    + exact (trace_svg _ _ _ _ _ _ fetches_slow_svg eq_refl eq_refl).
    + reflexivity.
    + reflexivity.
Qed.

(** ** The checks made before the fetch *)

(** A profile segment for which [imageType[...]] is [undefined] is
    answered 404 at once, whatever the upstream status, the extension and
    the store. *)
Lemma undefined_profile_not_found (ev : Event) (env : Env) (rq : Request) :
  parse_request (uri ev) = Some rq ->
  get imageType (ToPropertyKey (profileName rq)) = Undefined ->
  exists r : Response,
    trace ev env = [(0%nat, Respond r)]
    /\ status r = "404"
    /\ body r = Some not_found_body.
Proof.
  intros Hp Hu. eexists. split.
  - unfold trace, run, handler. rewrite Hp.
    unfold try_block. rewrite Hu. cbn [missing].
    destruct (String.eqb (origin_status ev) "404");
      rewrite clearTimeout_fail, clearTimeout_setTimeout; reflexivity.
  - split; reflexivity.
Qed.

(** An extension for which [validType[ext]] is [undefined] is answered
    403 at once. *)
Lemma undefined_extension_forbidden (ev : Event) (env : Env) (rq : Request) :
  parse_request (uri ev) = Some rq ->
  String.eqb (origin_status ev) "404" = false ->
  missing (get imageType (ToPropertyKey (profileName rq))) = false ->
  get validType (ext rq) = Undefined ->
  exists r : Response,
    trace ev env = [(0%nat, Respond r)]
    /\ status r = "403"
    /\ body r = Some unsupported_body.
Proof.
  intros Hp Hs Hi Hu. eexists. split.
  - unfold trace, run, handler. rewrite Hp.
    unfold try_block. rewrite Hs, Hi, Hu. cbn [missing].
    rewrite clearTimeout_fail, clearTimeout_setTimeout; reflexivity.
  - split; reflexivity.
Qed.

(** ** Claims on the checks *)

Lemma fetches_constructor_profile :
  fetches (event "/image/constructor/logo.svg")
    (world "logo.svg" svg_bytes 20 svg_info encoded_bytes)
    {| pathParse := [""; "image"; "constructor"]; base := "logo.svg"; ext := "svg";
       bucketName := BUCKET_image |}
    "logo.svg" None (Some {| Body := Some svg_bytes |}).
Proof. fetches_by_evaluation. Qed.

(** C7 (unknown profile).  The profile check is [!imageType[pathParse[2]]],
    and a property lookup also finds what every object inherits: for the
    segment 'constructor', which is no key of the profile table, the
    lookup is truthy, the check passes and the stored object is served
    with status 200. *)
Theorem C7_inherited_name_passes_profile_check :
  own_property imageType "constructor" = None
  /\ exists r : Response,
       delivered (event "/image/constructor/logo.svg")
         (world "logo.svg" svg_bytes 20 svg_info encoded_bytes)
       = Some (Respond r)
       /\ status r = "200"
       /\ body r = Some (toString_base64 svg_bytes).
Proof.
  split; [reflexivity |].
  eexists. split.
  - eapply delivered_trace.
    exact (trace_svg _ _ _ _ _ _ fetches_constructor_profile eq_refl eq_refl).
  - split; reflexivity.
Qed.

Lemma fetches_constructor_extension :
  fetches (event "/image/original/logo.constructor")
    (world "logo.constructor" source_bytes 20 png_info encoded_bytes)
    {| pathParse := [""; "image"; "original"]; base := "logo.constructor";
       ext := "constructor"; bucketName := BUCKET_image |}
    "logo.constructor" None (Some {| Body := Some source_bytes |}).
Proof. fetches_by_evaluation. Qed.

(** C8 (unsupported extension).  The extension check is [!validType[ext]]:
    for the extension 'constructor', which is no key of the table, the
    inherited property is found, the check passes, the object is fetched
    and its re-encoding is served with status 200. *)
Theorem C8_inherited_name_passes_extension_check :
  own_property validType "constructor" = None
  /\ exists r : Response,
       delivered (event "/image/original/logo.constructor")
         (world "logo.constructor" source_bytes 20 png_info encoded_bytes)
       = Some (Respond r)
       /\ status r = "200"
       /\ body r = Some (toString_base64 encoded_bytes).
Proof.
  split; [reflexivity |].
  eexists. split.
  - eapply delivered_trace.
    refine (trace_resize _ _ _ _ _ _ fetches_constructor_extension eq_refl
              (Some png_info) encoded_bytes eq_refl eq_refl eq_refl eq_refl _).
    vm_compute. discriminate.
  - split; reflexivity.
Qed.

Lemma fetches_svg_xml :
  fetches (event "/image/original/logo.svg+xml")
    (world "logo.svg+xml" svg_bytes 20 svg_info encoded_bytes)
    {| pathParse := [""; "image"; "original"]; base := "logo.svg+xml";
       ext := "svg+xml"; bucketName := BUCKET_image |}
    "logo.svg+xml" None (Some {| Body := Some svg_bytes |}).
Proof. fetches_by_evaluation. Qed.

(** C5 (vector pass-through).  The switch has a case for 'svg' only: a
    file with the extension 'svg+xml', which the table maps to
    image/svg+xml as well, takes the default branch, is probed and
    re-encoded, and is served as image/webp with the codec's bytes. *)
Theorem C5_svg_xml_is_probed_and_reencoded :
  own_property validType "svg+xml" = Some "image/svg+xml"
  /\ exists r : Response,
       delivered (event "/image/original/logo.svg+xml")
         (world "logo.svg+xml" svg_bytes 20 svg_info encoded_bytes)
       = Some (Respond r)
       /\ headers r !! "content-type"
          = Some [ {| key := "Content-Type"; value := "image/webp" |} ]
       /\ body r = Some (toString_base64 encoded_bytes)
       /\ body r <> Some (toString_base64 svg_bytes).
Proof.
  split; [reflexivity |].
  eexists. repeat apply conj.
  - eapply delivered_trace.
    refine (trace_resize _ _ _ _ _ _ fetches_svg_xml eq_refl
              (Some svg_info) encoded_bytes eq_refl eq_refl eq_refl eq_refl _).
    vm_compute. discriminate.
  - apply lookup_insert_eq.
  - reflexivity.
  - vm_compute. discriminate.
Qed.

(** The extension 'svg' itself is passed through: the body is the base64
    text of the stored bytes, the content type image/svg+xml, and neither
    the probe nor the codec is consulted. *)
Lemma svg_passes_through (ev : Event) (env : Env) (rq : Request) (Key : string)
    (err : option S3Error) (b : Buffer) :
  fetches ev env rq Key err (Some {| Body := Some b |}) ->
  not_found err = false ->
  ext rq = "svg" ->
  exists r : Response,
    delivered ev env = Some (Respond r)
    /\ status r = "200"
    /\ bodyEncoding r = Some base64
    /\ body r = Some (toString_base64 b)
    /\ headers r !! "content-type"
       = Some [ {| key := "Content-Type"; value := "image/svg+xml" |} ].
Proof.
  intros Hf He Hx. eexists. repeat apply conj.
  - eapply delivered_trace. exact (trace_svg _ _ _ _ _ _ Hf He Hx).
  - reflexivity.
  - reflexivity.
  - reflexivity.
  - apply lookup_insert_eq.
Qed.

(** ** Claims on the size ceiling *)

Lemma large_bytes_length : Buffer_length large_bytes = 786433.
Proof.
  unfold Buffer_length, large_bytes.
  rewrite repeat_length, N_nat_Z. reflexivity.
Qed.

Lemma large_bytes_text_length : String_length (toString_base64 large_bytes) = 1048580.
Proof. rewrite toString_base64_length, large_bytes_length. reflexivity. Qed.

Lemma fetches_original_png (out : Buffer) :
  fetches (event "/image/original/pic.png")
    (world "pic.png" source_bytes 20 png_info out)
    {| pathParse := [""; "image"; "original"]; base := "pic.png"; ext := "png";
       bucketName := BUCKET_image |}
    "pic.png" None (Some {| Body := Some source_bytes |}).
Proof. fetches_by_evaluation. Qed.

Lemma fetches_small_webp (b out : Buffer) :
  fetches (event "/image/thumbnail/small.webp")
    (world "small.webp" b 20 small_webp_info out)
    {| pathParse := [""; "image"; "thumbnail"]; base := "small.webp"; ext := "webp";
       bucketName := BUCKET_image |}
    "small.webp" None (Some {| Body := Some b |}).
Proof. fetches_by_evaluation. Qed.

(** The text of the resized image is at least as long as its bytes. *)
Lemma oversize_resized_text (out : Buffer) :
  limit < Buffer_length out -> limit < String_length (toString_base64 out).
Proof. pose proof (toString_base64_longer out). lia. Qed.

(** A body over the ceiling in bytes is never returned inline, on either
    branch: the response is the redirect to the fallback service. *)
Lemma oversize_body_redirects (ev : Event) (env : Env) (rq : Request) (Key : string)
    (err : option S3Error) (b : Buffer) (size : option ImageInfo) :
  fetches ev env rq Key err (Some {| Body := Some b |}) ->
  not_found err = false ->
  String.eqb (ext rq) "svg" = false ->
  sizeOf env b = SizeReturns size ->
  (no_upscale size (target_of (get imageType (ToPropertyKey (profileName rq)))) = true
   /\ limit < Buffer_length b)
  \/ (no_upscale size (target_of (get imageType (ToPropertyKey (profileName rq)))) = false
      /\ exists out : Buffer,
           Sharp env b (animated rq)
             (x (target_of (get imageType (ToPropertyKey (profileName rq)))))
             (y (target_of (get imageType (ToPropertyKey (profileName rq)))))
           = Resolves out
           /\ limit < Buffer_length out) ->
  exists r : Response,
    delivered ev env = Some (Respond r)
    /\ status r = "302"
    /\ body r = None
    /\ headers r !! "location"
       = Some [ {| key := "Location"; value := fallback (profileName rq) Key |} ].
Proof.
  intros Hf He Hx Hs [[Hn Hb] | [Hn (out & Ho & Hb)]].
  - eexists. repeat apply conj.
    + eapply delivered_trace.
      exact (trace_pass_redirect _ _ _ _ _ _ Hf He size Hx Hs Hn Hb).
    + reflexivity.
    + reflexivity.
    + apply lookup_insert_eq.
  - eexists. repeat apply conj.
    + eapply delivered_trace.
      exact (trace_resize_redirect _ _ _ _ _ _ Hf He size out Hx Hs Hn Ho
               (oversize_resized_text out Hb)).
    + reflexivity.
    + reflexivity.
    + apply lookup_insert_eq.
Qed.

(** C1 (size ceiling).  The two checks do not measure the same thing.
    Before the resize the ceiling is put on [data.Body.length], a number
    of bytes; after it, on [response.body.length], the length of the
    base64 text.  A resized image of 786,433 bytes, under the ceiling, is
    answered with a redirect, while the same bytes met on the no-upscale
    branch are returned with status 200. *)
Theorem C1_resized_body_is_measured_as_base64_text :
  Buffer_length large_bytes <= limit
  /\ (exists r : Response,
        delivered (event "/image/original/pic.png")
          (world "pic.png" source_bytes 20 png_info large_bytes)
        = Some (Respond r)
        /\ status r = "302"
        /\ body r = None
        /\ headers r !! "location"
           = Some [ {| key := "Location";
                       value := fallback (Some "original") "pic.png" |} ])
  /\ (exists r : Response,
        delivered (event "/image/thumbnail/small.webp")
          (world "small.webp" large_bytes 20 small_webp_info encoded_bytes)
        = Some (Respond r)
        /\ status r = "200"
        /\ body r = Some (toString_base64 large_bytes)).
Proof.
  split; [rewrite large_bytes_length; unfold limit; lia |].
  split.
  - eexists. repeat apply conj.
    + eapply delivered_trace.
      refine (trace_resize_redirect _ _ _ _ _ _ (fetches_original_png large_bytes) eq_refl
                (Some png_info) large_bytes eq_refl eq_refl eq_refl eq_refl _).
      rewrite large_bytes_text_length. unfold limit. lia.
    + reflexivity.
    + reflexivity.
    + apply lookup_insert_eq.
  - eexists. repeat apply conj.
    + eapply delivered_trace.
      refine (trace_pass _ _ _ _ _ _ (fetches_small_webp large_bytes encoded_bytes) eq_refl
                (Some small_webp_info) eq_refl eq_refl eq_refl _).
      rewrite large_bytes_length. unfold limit. lia.
    + reflexivity.
    + reflexivity.
Qed.

(** ** Claims on the no-upscale branch and the [original] profile *)

Lemma fetches_big_webp :
  fetches (event "/image/thumbnail/photo.webp")
    (world "photo.webp" source_bytes 20 big_webp_info encoded_bytes)
    {| pathParse := [""; "image"; "thumbnail"]; base := "photo.webp"; ext := "webp";
       bucketName := BUCKET_image |}
    "photo.webp" None (Some {| Body := Some source_bytes |}).
Proof. fetches_by_evaluation. Qed.

(** C3, as stated, fails: a 4000x3000 webp source asked for as a
    thumbnail (300x300) is at least as large as the target box in both
    dimensions and in the wire format, and it is sent through the codec;
    the body is the codec's output, not the source bytes. *)
Lemma C3_counterexample :
  own_property imageType "thumbnail" = Some {| x := number 300; y := number 300 |}
  /\ type big_webp_info = "webp"
  /\ 300 <= width big_webp_info
  /\ 300 <= height big_webp_info
  /\ exists r : Response,
       delivered (event "/image/thumbnail/photo.webp")
         (world "photo.webp" source_bytes 20 big_webp_info encoded_bytes)
       = Some (Respond r)
       /\ status r = "200"
       /\ body r = Some (toString_base64 encoded_bytes)
       /\ body r <> Some (toString_base64 source_bytes).
Proof.
  repeat apply conj; try reflexivity; try (vm_compute; discriminate).
  eexists. repeat apply conj.
  - eapply delivered_trace.
    refine (trace_resize _ _ _ _ _ _ fetches_big_webp eq_refl
              (Some big_webp_info) encoded_bytes eq_refl eq_refl eq_refl eq_refl _).
    vm_compute. discriminate.
  - reflexivity.
  - reflexivity.
  - vm_compute. discriminate.
Qed.

Lemma fetches_thumbnail_webp (info : ImageInfo) :
  fetches (event "/image/thumbnail/photo.webp")
    (world "photo.webp" source_bytes 20 info encoded_bytes)
    {| pathParse := [""; "image"; "thumbnail"]; base := "photo.webp"; ext := "webp";
       bucketName := BUCKET_image |}
    "photo.webp" None (Some {| Body := Some source_bytes |}).
Proof. fetches_by_evaluation. Qed.

(** C3, amended.  For a source probed as webp and a profile with a
    target box [tx] by [ty]: when the target exceeds the source in width
    or in height (the resize would have to enlarge it) the bypass is
    taken, and for a body within the ceiling the response is a 200 whose
    body is the base64 text of the source bytes, served as image/webp;
    when the source equals or exceeds the target box in both dimensions
    it is sent through the codec, called with that box, and the 200
    carries what the codec wrote. *)
Theorem C3_webp_is_bypassed_or_sent_to_the_codec (ev : Event) (env : Env)
    (rq : Request) (Key : string) (err : option S3Error) (b : Buffer)
    (sz : ImageInfo) (tx ty : Z) :
  fetches ev env rq Key err (Some {| Body := Some b |}) ->
  not_found err = false ->
  String.eqb (ext rq) "svg" = false ->
  sizeOf env b = SizeReturns (Some sz) ->
  type sz = "webp" ->
  target rq = {| x := number tx; y := number ty |} ->
  (width sz < tx \/ height sz < ty ->
   Buffer_length b <= limit ->
   exists r : Response,
     trace ev env = [(S3_latency env, Respond r)]
     /\ status r = "200"
     /\ bodyEncoding r = Some base64
     /\ body r = Some (toString_base64 b)
     /\ headers r !! "content-type"
        = Some [ {| key := "Content-Type"; value := "image/webp" |} ])
  /\ (tx <= width sz ->
      ty <= height sz ->
      forall out : Buffer,
        Sharp env b (animated rq) (number tx) (number ty) = Resolves out ->
        String_length (toString_base64 out) <= limit ->
        exists r : Response,
          trace ev env = [((S3_latency env + Sharp_latency env)%nat, Respond r)]
          /\ status r = "200"
          /\ bodyEncoding r = Some base64
          /\ body r = Some (toString_base64 out)
          /\ headers r !! "content-type"
             = Some [ {| key := "Content-Type"; value := "image/webp" |} ]).
Proof.
  intros Hf He Hx Hs Ht Htg. unfold target in Htg. split.
  - intros Hlt Hb. eexists. repeat apply conj.
    + apply (trace_pass _ _ _ _ _ _ Hf He (Some sz) Hx Hs); [| exact Hb].
      rewrite Htg. unfold no_upscale, gt. cbn [x y]. rewrite Ht.
      change (String.eqb "webp" "webp") with true. cbn [andb].
      apply orb_true_iff.
      destruct Hlt as [Hw | Hh]; [left | right]; apply Z.gtb_lt; assumption.
    + reflexivity.
    + reflexivity.
    + reflexivity.
    + apply lookup_insert_eq.
  - intros Hw Hh out Ho Hl. eexists. repeat apply conj.
    + apply (trace_resize _ _ _ _ _ _ Hf He (Some sz) out Hx Hs);
        rewrite ?Htg; cbn [x y]; [| exact Ho | exact Hl].
      unfold no_upscale, gt. cbn [x y]. rewrite Ht.
      change (String.eqb "webp" "webp") with true. cbn [andb].
      apply orb_false_iff.
      split; (destruct (Z.gtb_spec tx (width sz)), (Z.gtb_spec ty (height sz));
              first [reflexivity | lia]).
    + reflexivity.
    + reflexivity.
    + reflexivity.
    + apply lookup_insert_eq.
Qed.

(** A 120x90 webp asked for as a thumbnail is passed through; a webp
    of exactly 300x300 is sent to the codec. *)
Lemma C3_webp_is_bypassed_or_sent_to_the_codec_witness :
  (exists r : Response,
     trace (event "/image/thumbnail/small.webp")
       (world "small.webp" source_bytes 20 small_webp_info encoded_bytes)
     = [(20%nat, Respond r)]
     /\ status r = "200"
     /\ bodyEncoding r = Some base64
     /\ body r = Some (toString_base64 source_bytes)
     /\ headers r !! "content-type"
        = Some [ {| key := "Content-Type"; value := "image/webp" |} ])
  /\ (exists r : Response,
        trace (event "/image/thumbnail/photo.webp")
          (world "photo.webp" source_bytes 20 exact_webp_info encoded_bytes)
        = [((20 + 40)%nat, Respond r)]
        /\ status r = "200"
        /\ bodyEncoding r = Some base64
        /\ body r = Some (toString_base64 encoded_bytes)
        /\ headers r !! "content-type"
           = Some [ {| key := "Content-Type"; value := "image/webp" |} ]).
Proof.
  split.
  - apply (proj1 (C3_webp_is_bypassed_or_sent_to_the_codec _ _ _ _ _ _
                    small_webp_info 300 300
                    (fetches_small_webp source_bytes encoded_bytes)
                    eq_refl eq_refl eq_refl eq_refl eq_refl)).
    + left. cbn. lia.
    + vm_compute. discriminate.
  - apply (proj2 (C3_webp_is_bypassed_or_sent_to_the_codec _ _ _ _ _ _
                    exact_webp_info 300 300
                    (fetches_thumbnail_webp exact_webp_info)
                    eq_refl eq_refl eq_refl eq_refl eq_refl)).
    + cbn. lia.
    + cbn. lia.
    + reflexivity.
    + vm_compute. discriminate.
Defined.

(** C4, as stated, fails: a png asked for under [original] is handed
    to the codec and answered with the codec's webp bytes. *)
Lemma C4_counterexample :
  own_property imageType "original" = Some {| x := null; y := null |}
  /\ exists r : Response,
       delivered (event "/image/original/pic.png")
         (world "pic.png" source_bytes 20 png_info encoded_bytes)
       = Some (Respond r)
       /\ status r = "200"
       /\ headers r !! "content-type"
          = Some [ {| key := "Content-Type"; value := "image/webp" |} ]
       /\ body r = Some (toString_base64 encoded_bytes)
       /\ body r <> Some (toString_base64 source_bytes).
Proof.
  split; [reflexivity |].
  eexists. repeat apply conj.
  - eapply delivered_trace.
    refine (trace_resize _ _ _ _ _ _ (fetches_original_png encoded_bytes) eq_refl
              (Some png_info) encoded_bytes eq_refl eq_refl eq_refl eq_refl _).
    vm_compute. discriminate.
  - reflexivity.
  - apply lookup_insert_eq.
  - reflexivity.
  - vm_compute. discriminate.
Qed.

(** [null > n] is false for every dimension a probe can report. *)
Lemma original_never_bypasses (size : option ImageInfo) :
  (forall sz, size = Some sz -> 0 <= width sz /\ 0 <= height sz) ->
  no_upscale size {| x := null; y := null |} = false.
Proof.
  intros H. destruct size as [sz|]; [| reflexivity].
  destruct (H sz eq_refl) as [Hw Hh].
  unfold no_upscale, gt. cbn [x y].
  destruct (Z.gtb_spec 0 (width sz)); [lia |].
  destruct (Z.gtb_spec 0 (height sz)); [lia |].
  now rewrite andb_false_r.
Qed.

(** C4, amended.  Under [original] a raster image is not scaled (the
    codec is called with [null] for both target dimensions) but it is
    re-encoded: the 200 response carries the codec's output as
    image/webp, when its base64 text is within the ceiling. *)
Theorem C4_original_is_reencoded_not_scaled (ev : Event) (env : Env) (rq : Request)
    (Key : string) (err : option S3Error) (b : Buffer) (size : option ImageInfo)
    (out : Buffer) :
  fetches ev env rq Key err (Some {| Body := Some b |}) ->
  not_found err = false ->
  profileName rq = Some "original" ->
  String.eqb (ext rq) "svg" = false ->
  sizeOf env b = SizeReturns size ->
  (forall sz, size = Some sz -> 0 <= width sz /\ 0 <= height sz) ->
  Sharp env b (animated rq) null null = Resolves out ->
  String_length (toString_base64 out) <= limit ->
  exists r : Response,
    delivered ev env = Some (Respond r)
    /\ status r = "200"
    /\ bodyEncoding r = Some base64
    /\ body r = Some (toString_base64 out)
    /\ headers r !! "content-type"
       = Some [ {| key := "Content-Type"; value := "image/webp" |} ].
Proof.
  intros Hf He Hp Hx Hs Hd Ho Hl.
  eexists. repeat apply conj.
  - eapply delivered_trace.
    apply (trace_resize _ _ _ _ _ _ Hf He size out Hx Hs); try rewrite Hp.
    + now apply original_never_bypasses.
    + exact Ho.
    + exact Hl.
  - reflexivity.
  - reflexivity.
  - reflexivity.
  - apply lookup_insert_eq.
Qed.

(** An 800x600 png asked for under [original]. *)
Lemma C4_original_is_reencoded_not_scaled_witness :
  exists r : Response,
    delivered (event "/image/original/pic.png")
      (world "pic.png" source_bytes 20 png_info encoded_bytes)
    = Some (Respond r)
    /\ status r = "200"
    /\ bodyEncoding r = Some base64
    /\ body r = Some (toString_base64 encoded_bytes)
    /\ headers r !! "content-type"
       = Some [ {| key := "Content-Type"; value := "image/webp" |} ].
Proof.
  apply (C4_original_is_reencoded_not_scaled _ _ _ _ _ _ (Some png_info) encoded_bytes
           (fetches_original_png encoded_bytes)).
  - reflexivity.
  - reflexivity.
  - reflexivity.
  - reflexivity.
  - intros sz Hsz. injection Hsz as <-. cbn. lia.
  - reflexivity.
  - vm_compute. discriminate.
Defined.

(** ** Claims on the checks made after the fetch *)

Lemma fetches_empty_svg :
  fetches (event "/image/original/empty.svg")
    (world "empty.svg" [] 20 svg_info encoded_bytes)
    {| pathParse := [""; "image"; "original"]; base := "empty.svg"; ext := "svg";
       bucketName := BUCKET_image |}
    "empty.svg" None (Some {| Body := Some [] |}).
Proof. fetches_by_evaluation. Qed.

(** C6 (checks after the fetch).  The test for a missing body is
    [if (data && !data.Body)], which answers 404; a stored object of
    zero bytes arrives as an empty Buffer, and a Buffer is truthy, so the
    test does not hold for it: an empty svg is answered with status 200
    and an empty body instead of the 404. *)
Theorem C6_empty_body_is_served :
  exists r : Response,
    delivered (event "/image/original/empty.svg")
      (world "empty.svg" [] 20 svg_info encoded_bytes)
    = Some (Respond r)
    /\ status r = "200"
    /\ body r = Some ""
    /\ status r <> "404".
Proof.
  eexists. repeat apply conj.
  - eapply delivered_trace.
    exact (trace_svg _ _ _ _ _ _ fetches_empty_svg eq_refl eq_refl).
  - reflexivity.
  - reflexivity.
  - discriminate.
Qed.

Lemma redirect_accepted (rq : Request) (st : Store) :
  accepted (snd (redirect rq st)).
Proof.
  unfold redirect. destruct (location rq); cbn; auto.
Qed.

Lemma sharp_settled_accepted (rq : Request) (now : nat) (o : SharpOutcome) (l : Loop) :
  exists c : Completion,
    queue (sharp_settled rq now o l) = queue l
    /\ log (sharp_settled rq now o l) = (log l ++ [(now, c)])%list
    /\ accepted c.
Proof.
  unfold sharp_settled.
  destruct o as [resizedImage | error].
  - destruct (String_length _ >? limit).
    + pose proof (redirect_accepted rq (set_body (toString_base64 resizedImage) (store l)))
        as Ha.
      destruct (redirect rq _) as [st' c]. cbn [snd] in Ha.
      destruct c; eexists; (split; [reflexivity |]); (split; [reflexivity |]);
        cbn; auto.
    + eexists. split; [reflexivity |]. split; [reflexivity |]. cbn. auto.
  - eexists. split; [reflexivity |]. split; [reflexivity |]. exact I.
Qed.

Lemma s3_callback_accepted (env : Env) (rq : Request) (now : nat) (err : option S3Error)
    (b : Buffer) (st : Store) :
  not_found err = false ->
  exists (t : nat) (c : Completion),
    log (event_loop 2 env
           (s3_callback env rq now err (Some {| Body := Some b |})
              {| store := st; queue := []; log := [] |}))
    = [(t, c)]
    /\ accepted c.
Proof.
  intros He. unfold s3_callback. rewrite He. cbn [Body].
  destruct (String.eqb (ext rq) "svg").
  { do 2 eexists. split; [reflexivity |]. cbn. auto. }
  destruct (sizeOf env b) as [e | size].
  { do 2 eexists. split; [reflexivity |]. exact I. }
  destruct (no_upscale size _).
  - destruct (Buffer_length b >? limit).
    + pose proof (redirect_accepted rq st) as Ha. cbn [store].
      destruct (redirect rq st) as [st' c]. cbn [snd] in Ha.
      do 2 eexists. split; [reflexivity |]. exact Ha.
    + do 2 eexists. split; [reflexivity |]. cbn. auto.
  - cbn [event_loop schedule queue enqueue store log exec].
    destruct (sharp_settled_accepted rq (now + Sharp_latency env)
                (Sharp env b (animated rq)
                   (x (target_of (get imageType (ToPropertyKey (profileName rq)))))
                   (y (target_of (get imageType (ToPropertyKey (profileName rq))))))
                {| store := st; queue := []; log := [] |}) as (c & Hq & Hl & Hc).
    exists (now + Sharp_latency env)%nat, c. split; [| exact Hc].
    rewrite Hq. exact Hl.
Qed.

(** Once a body is present, the callback never answers with
    [failResponse]: what it signals is a 200 or a 302. *)
Lemma present_body_not_refused (ev : Event) (env : Env) (rq : Request) (Key : string)
    (err : option S3Error) (b : Buffer) (r : Response) :
  fetches ev env rq Key err (Some {| Body := Some b |}) ->
  not_found err = false ->
  delivered ev env = Some (Respond r) ->
  status r = "200" \/ status r = "302".
Proof.
  intros Hf He Hd.
  unfold delivered, trace in Hd. rewrite (run_fetches _ _ _ _ _ _ Hf) in Hd.
  destruct (s3_callback_accepted env rq (S3_latency env) err b (init ev) He)
    as (t & c & Hl & Hc).
  rewrite Hl in Hd. inversion Hd; subst c. exact Hc.
Qed.

(** The checks after the fetch, when S3 reported no 404, as the code
    makes them: with no data object the response is the 500 with the
    body 'The file is not normal.'; with a data object that has no
    [Body] it is the 404 'Not Found'; a body that is present gets past
    both. *)
Lemma origin_body_check (ev : Event) (env : Env) (rq : Request) (Key : string)
    (err : option S3Error) (data : option S3Data) :
  fetches ev env rq Key err data ->
  not_found err = false ->
  match data with
  | None =>
      exists r : Response,
        delivered ev env = Some (Respond r)
        /\ status r = "500"
        /\ bodyEncoding r = Some text
        /\ body r = Some not_normal_body
  | Some {| Body := None |} =>
      exists r : Response,
        delivered ev env = Some (Respond r)
        /\ status r = "404"
        /\ statusDescription r = "Not Found"
        /\ bodyEncoding r = Some text
        /\ body r = Some not_found_body
  | Some {| Body := Some b |} =>
      forall r : Response,
        delivered ev env = Some (Respond r) -> status r = "200" \/ status r = "302"
  end.
Proof.
  intros Hf He.
  destruct data as [[[b|]]|].
  - intros r Hd. exact (present_body_not_refused _ _ _ _ _ _ _ Hf He Hd).
  - eexists. repeat apply conj.
    + unfold delivered, trace. rewrite (run_fetches _ _ _ _ _ _ Hf).
      rewrite s3_callback_no_body by assumption. reflexivity.
    + reflexivity.
    + reflexivity.
    + reflexivity.
    + reflexivity.
  - eexists. repeat apply conj.
    + unfold delivered, trace. rewrite (run_fetches _ _ _ _ _ _ Hf).
      rewrite s3_callback_no_data by assumption. reflexivity.
    + reflexivity.
    + reflexivity.
    + reflexivity.
Qed.

Lemma fetches_outage :
  fetches (event "/image/original/pic.png") outage
    {| pathParse := [""; "image"; "original"]; base := "pic.png"; ext := "png";
       bucketName := BUCKET_image |}
    "pic.png" (Some {| statusCode := 503 |}) None.
Proof. fetches_by_evaluation. Qed.

(** S3 fails with 503 and hands over no data. *)
Lemma origin_body_check_outage :
  exists r : Response,
    delivered (event "/image/original/pic.png") outage = Some (Respond r)
    /\ status r = "500"
    /\ bodyEncoding r = Some text
    /\ body r = Some not_normal_body.
Proof.
  exact (origin_body_check _ _ _ _ _ _ fetches_outage eq_refl).
Qed.

(** ** The cache header of redirects *)

Lemma init_cache_control (ev : Event) :
  successHeaders (init ev) !! "cache-control" = Some max_age.
Proof.
  unfold init; cbn [successHeaders].
  rewrite lookup_insert_ne by discriminate.
  apply lookup_insert_eq.
Qed.

Lemma invariant_queue (st : Store) (q q' : list (nat * Task)) (lg : list (nat * Completion)) :
  cache_invariant {| store := st; queue := q; log := lg |} ->
  cache_invariant {| store := st; queue := q'; log := lg |}.
Proof. intros H. exact H. Qed.

Lemma invariant_schedule (t : nat) (k : Task) (l : Loop) :
  cache_invariant l -> cache_invariant (schedule t k l).
Proof. intros H. exact H. Qed.

Lemma invariant_clearTimeout (l : Loop) :
  cache_invariant l -> cache_invariant (clearTimeout l).
Proof. intros H. exact H. Qed.

Lemma invariant_callback (now : nat) (c : Completion) (st : Store) (l : Loop) :
  successHeaders st !! "cache-control" = Some max_age ->
  cache_invariant l ->
  signal_ok c ->
  cache_invariant (callback now c (put st l)).
Proof.
  intros Hs [_ Hl] Hc. split; [exact Hs |].
  cbn [callback put log]. apply List.Forall_app. split; [exact Hl |].
  constructor; [exact Hc | constructor].
Qed.

Lemma invariant_error (now : nat) (c : Completion) (l : Loop) :
  cache_invariant l -> signal_ok c -> cache_invariant (callback now c l).
Proof.
  intros H Hc. destruct l as [st q lg].
  exact (invariant_callback now c st _ (proj1 H) H Hc).
Qed.

Lemma invariant_fail (s d c m : string) (now : nat) (l : Loop) :
  s <> "302" -> cache_invariant l -> cache_invariant (fail s d c m now l).
Proof.
  intros Hs H. unfold fail.
  apply invariant_callback; [exact (proj1 H) | exact H |].
  intros H302. cbn in H302. contradiction.
Qed.

Lemma invariant_redirect (rq : Request) (now : nat) (st : Store) (l : Loop) :
  successHeaders st !! "cache-control" = Some max_age ->
  cache_invariant l ->
  cache_invariant (let (st', c) := redirect rq st in callback now c (put st' l)).
Proof.
  intros Hs H. unfold redirect.
  destruct (location rq) as [loc|].
  - apply invariant_callback; [| exact H |].
    + cbn [set_header successHeaders set_found].
      now rewrite lookup_insert_ne by discriminate.
    + intros _. unfold cacheable. cbn [responseSuccessHeader headers set_header
                                        successHeaders set_found].
      now rewrite lookup_insert_ne by discriminate.
  - apply invariant_callback; [exact Hs | exact H | exact I].
Qed.

Lemma invariant_response (now : nat) (k : string) (h : Header) (b : string) (l : Loop) :
  k <> "cache-control" ->
  cache_invariant l ->
  cache_invariant
    (callback now (Respond (response (set_header k h (set_body b (store l)))))
       (put (set_header k h (set_body b (store l))) l)).
Proof.
  intros Hk H.
  apply invariant_callback; [| exact H | intros H302; discriminate H302].
  cbn [set_header successHeaders set_body].
  rewrite lookup_insert_ne by congruence. exact (proj1 H).
Qed.

Lemma invariant_sharp_settled (rq : Request) (now : nat) (o : SharpOutcome) (l : Loop) :
  cache_invariant l -> cache_invariant (sharp_settled rq now o l).
Proof.
  intros H. unfold sharp_settled.
  destruct o as [resizedImage | error]; [| now apply invariant_error].
  destruct (String_length _ >? limit).
  - pose proof (invariant_redirect rq now
                  (set_body (toString_base64 resizedImage) (store l)) l (proj1 H) H) as Hr.
    destruct (redirect rq _) as [st' c].
    destruct c; try exact Hr.
    destruct Hr as [Hst Hlog]. split; [exact Hst |].
    cbn [callback put log] in *.
    apply List.Forall_app in Hlog. apply List.Forall_app.
    split; [exact (proj1 Hlog) |]. constructor; [exact I | constructor].
  - apply (invariant_response now "content-type" _ (toString_base64 resizedImage) l);
      [discriminate | exact H].
Qed.

Lemma invariant_s3_callback (env : Env) (rq : Request) (now : nat)
    (err : option S3Error) (data : option S3Data) (l : Loop) :
  cache_invariant l -> cache_invariant (s3_callback env rq now err data l).
Proof.
  intros H. unfold s3_callback.
  destruct (not_found err); [apply invariant_fail; [discriminate | exact H] |].
  destruct data as [[[b|]]|]; cbn [Body];
    try (apply invariant_fail; [discriminate | exact H]).
  destruct (String.eqb (ext rq) "svg").
  { apply (invariant_response now "content-type" _ (toString_base64 b) l);
      [discriminate | exact H]. }
  destruct (sizeOf env b) as [e | size]; [now apply invariant_error |].
  destruct (no_upscale size _); [| now apply invariant_schedule].
  destruct (Buffer_length b >? limit).
  - exact (invariant_redirect rq now (store l) l (proj1 H) H).
  - apply (invariant_response now "content-type" _ (toString_base64 b) l);
      [discriminate | exact H].
Qed.

Lemma invariant_try_block (ev : Event) (env : Env) (rq : Request) (l : Loop) :
  cache_invariant l -> cache_invariant (try_block ev env rq l).
Proof.
  intros H. unfold try_block.
  destruct (String.eqb (origin_status ev) "404");
    [apply invariant_fail; [discriminate | exact H] |].
  destruct (missing (get imageType _));
    [apply invariant_fail; [discriminate | exact H] |].
  destruct (missing (get validType _));
    [apply invariant_fail; [discriminate | exact H] |].
  destruct (decodeURI (base rq)) as [Key|]; [| now apply invariant_error].
  destruct (S3_getObject env (bucketName rq) Key) as [e | err data].
  - now apply invariant_error.
  - now apply invariant_schedule.
Qed.

Lemma invariant_handler (ev : Event) (env : Env) :
  cache_invariant (handler ev env).
Proof.
  assert (H0 : cache_invariant {| store := init ev; queue := []; log := [] |})
    by (split; [apply init_cache_control | constructor]).
  unfold handler. destruct (parse_request (uri ev)) as [rq|].
  - apply invariant_clearTimeout, invariant_try_block, invariant_schedule, H0.
  - now apply invariant_error.
Qed.

Lemma invariant_exec (env : Env) (now : nat) (k : Task) (l : Loop) :
  cache_invariant l -> cache_invariant (exec env now k l).
Proof.
  intros H. destruct k as [rq | rq err data | rq o]; cbn [exec].
  - exact (invariant_redirect rq now (store l) l (proj1 H) H).
  - now apply invariant_s3_callback.
  - now apply invariant_sharp_settled.
Qed.

Lemma invariant_event_loop (fuel : nat) (env : Env) (l : Loop) :
  cache_invariant l -> cache_invariant (event_loop fuel env l).
Proof.
  revert l. induction fuel as [| fuel IH]; intros l H; [exact H |].
  cbn [event_loop]. destruct (queue l) as [| [t k] q] eqn:Hq; [exact H |].
  apply IH, invariant_exec. destruct l as [st q0 lg]. exact H.
Qed.

Lemma invariant_log (l : Loop) (t : nat) (r : Response) :
  cache_invariant l ->
  In (t, Respond r) (log l) ->
  status r = "302" ->
  cacheable r.
Proof.
  intros [_ Hl] Hin Hs.
  rewrite List.Forall_forall in Hl. exact (Hl _ Hin Hs).
Qed.

Lemma trace_large_resized :
  trace (event "/image/original/pic.png")
    (world "pic.png" source_bytes 20 png_info large_bytes)
  = [((20 + 40)%nat,
      Respond (responseSuccessHeader
                 (set_header "location"
                    {| key := "Location"; value := fallback (Some "original") "pic.png" |}
                    (set_found (set_body (toString_base64 large_bytes)
                                  (init (event "/image/original/pic.png")))))))].
Proof.
  refine (trace_resize_redirect _ _ _ _ _ _ (fetches_original_png large_bytes) eq_refl
            (Some png_info) large_bytes eq_refl eq_refl eq_refl eq_refl _).
  rewrite large_bytes_text_length. unfold limit. lia.
Qed.

(** C9 (cache header of redirects).  Every 302 the program signals
    carries Cache-Control: max-age=31536000 and so not no-cache: those of
    the two size checks, which are the ones a run can produce, and the
    one the timer callback would signal wherever in the run it fired. *)
Theorem C9_redirects_keep_max_age (ev : Event) (env : Env) :
  (forall (t : nat) (r : Response),
      In (t, Respond r) (trace ev env) ->
      status r = "302" ->
      cacheable r /\ headers r !! "cache-control" <> Some no_cache)
  /\ (forall (fuel : nat) (rq : Request) (now t : nat) (r : Response),
        In (t, Respond r)
          (log (exec env now (TimerFires rq) (event_loop fuel env (handler ev env)))) ->
        status r = "302" ->
        cacheable r /\ headers r !! "cache-control" <> Some no_cache).
Proof.
  assert (Hc : forall r, cacheable r ->
                 cacheable r /\ headers r !! "cache-control" <> Some no_cache).
  { intros r Hr. split; [exact Hr |]. unfold cacheable in Hr. rewrite Hr. discriminate. }
  split.
  - intros t r Hin Hs. apply Hc.
    exact (invariant_log _ t r
             (invariant_event_loop 3 env _ (invariant_handler ev env)) Hin Hs).
  - intros fuel rq now t r Hin Hs. apply Hc.
    exact (invariant_log _ t r
             (invariant_exec env now _ _
                (invariant_event_loop fuel env _ (invariant_handler ev env))) Hin Hs).
Qed.

(** The redirect of a resized image whose text is over the ceiling. *)
Lemma C9_redirects_keep_max_age_witness :
  exists r : Response,
    In ((20 + 40)%nat, Respond r)
      (trace (event "/image/original/pic.png")
         (world "pic.png" source_bytes 20 png_info large_bytes))
    /\ status r = "302"
    /\ cacheable r
    /\ headers r !! "cache-control" <> Some no_cache.
Proof.
  eexists. split; [rewrite trace_large_resized; left; reflexivity |].
  split; [reflexivity |].
  apply (proj1 (C9_redirects_keep_max_age (event "/image/original/pic.png")
                  (world "pic.png" source_bytes 20 png_info large_bytes))
           (20 + 40)%nat).
  - rewrite trace_large_resized. left. reflexivity.
  - reflexivity.
Defined.

(** ** The key and the file name of the redirect *)

(** C10 (double decoding).  The path is decoded once as a whole and
    its last segment once more, and each decoding can change the name:
    for /image/thumbnail/a%2541.png the first decoding gives
    /image/thumbnail/a%41.png, another path, whose last segment a%41.png
    still holds an escape; the second gives aA.png, and that, not
    a%41.png, is both the key S3 is asked for and the file name of the
    redirect. *)
Theorem C10_file_name_is_decoded_twice :
  exists (u once : string) (rq : Request) (Key : string),
    decodeURIComponent u = Some once
    /\ u <> once
    /\ Path.base (Path.parse u) <> Path.base (Path.parse once)
    /\ parse_request u = Some rq
    /\ base rq = Path.base (Path.parse once)
    /\ string_mem "%"%char (base rq) = true
    /\ decodeURI (base rq) = Some Key
    /\ Key <> base rq
    /\ Key <> Path.base (Path.parse u)
    /\ location rq = Some (polyfillHost ++ "/prod/image/thumbnail/" ++ Key)
    /\ forall (env : Env) (err : option S3Error) (data : option S3Data),
         S3_getObject env (bucketName rq) Key = S3Calls err data ->
         queue (handler (event u) env) = [(S3_latency env, S3Responds rq err data)].
Proof.
  exists "/image/thumbnail/a%2541.png", "/image/thumbnail/a%41.png",
    {| pathParse := [""; "image"; "thumbnail"]; base := "a%41.png"; ext := "png";
       bucketName := BUCKET_image |},
    "aA.png".
  repeat apply conj; try reflexivity.
  - discriminate.
  - vm_compute. discriminate.
  - discriminate.
  - vm_compute. discriminate.
  - intros env err data Hg.
    erewrite (handler_fetches (event "/image/thumbnail/a%2541.png") env _ "aA.png" err data);
      [reflexivity |].
    repeat (split; [reflexivity |]). exact Hg.
Qed.

(** * Every way an invocation ends *)

(** ** The traces of the paths that end in an error or a refusal *)

Lemma trace_sync_refusal (ev : Event) (env : Env) (rq : Request) (s d c m : string) :
  parse_request (uri ev) = Some rq ->
  try_block ev env rq (setTimeout rq {| store := init ev; queue := []; log := [] |})
  = fail s d c m 0 (setTimeout rq {| store := init ev; queue := []; log := [] |}) ->
  trace ev env = [(0%nat, Respond (refusal ev s d c m))].
Proof.
  intros Hp Ht. unfold trace, run, handler. rewrite Hp, Ht.
  rewrite clearTimeout_fail, clearTimeout_setTimeout. reflexivity.
Qed.

Lemma trace_sync_error (ev : Event) (env : Env) (rq : Request) (e : string) :
  parse_request (uri ev) = Some rq ->
  try_block ev env rq (setTimeout rq {| store := init ev; queue := []; log := [] |})
  = callback 0 (Fail e) (setTimeout rq {| store := init ev; queue := []; log := [] |}) ->
  trace ev env = [(0%nat, Fail e)].
Proof.
  intros Hp Ht. unfold trace, run, handler. rewrite Hp, Ht.
  rewrite clearTimeout_callback, clearTimeout_setTimeout. reflexivity.
Qed.

Lemma trace_uri_error (ev : Event) (env : Env) :
  parse_request (uri ev) = None ->
  trace ev env = [(0%nat, Uncaught "URIError")].
Proof. intros Hp. unfold trace, run, handler. now rewrite Hp. Qed.

Lemma trace_upstream_404 (ev : Event) (env : Env) (rq : Request) :
  parse_request (uri ev) = Some rq ->
  String.eqb (origin_status ev) "404" = true ->
  trace ev env = [(0%nat, Respond (refusal ev "404" "Not Found" "404" "Not Found"))].
Proof.
  intros Hp Hs. apply (trace_sync_refusal _ _ rq); [exact Hp |].
  unfold try_block. now rewrite Hs.
Qed.

Lemma trace_profile (ev : Event) (env : Env) (rq : Request) :
  parse_request (uri ev) = Some rq ->
  missing (get imageType (ToPropertyKey (profileName rq))) = true ->
  trace ev env = [(0%nat, Respond (refusal ev "404" "Not Found" "404" "Not Found"))].
Proof.
  intros Hp Hi. apply (trace_sync_refusal _ _ rq); [exact Hp |].
  unfold try_block. rewrite Hi. now destruct (String.eqb (origin_status ev) "404").
Qed.

Lemma trace_extension (ev : Event) (env : Env) (rq : Request) :
  parse_request (uri ev) = Some rq ->
  String.eqb (origin_status ev) "404" = false ->
  missing (get imageType (ToPropertyKey (profileName rq))) = false ->
  missing (get validType (ext rq)) = true ->
  trace ev env
  = [(0%nat,
      Respond (refusal ev "403" "Unsupported extension." "403" "Unsupported extension."))].
Proof.
  intros Hp Hs Hi Hx.
  apply (trace_sync_refusal _ _ rq); [exact Hp |].
  unfold try_block. now rewrite Hs, Hi, Hx.
Qed.

Lemma trace_key_error (ev : Event) (env : Env) (rq : Request) :
  passes_checks ev rq ->
  decodeURI (base rq) = None ->
  trace ev env = [(0%nat, Fail "URIError")].
Proof.
  intros (Hp & Hs & Hi & Hv) Hk. apply (trace_sync_error _ _ rq); [exact Hp |].
  unfold try_block. now rewrite Hs, Hi, Hv, Hk.
Qed.

Lemma trace_s3_throws (ev : Event) (env : Env) (rq : Request) (Key e : string) :
  passes_checks ev rq ->
  decodeURI (base rq) = Some Key ->
  S3_getObject env (bucketName rq) Key = S3Throws e ->
  trace ev env = [(0%nat, Fail e)].
Proof.
  intros (Hp & Hs & Hi & Hv) Hk Hg. apply (trace_sync_error _ _ rq); [exact Hp |].
  unfold try_block. now rewrite Hs, Hi, Hv, Hk, Hg.
Qed.

Section AfterTheFetch.
Variables (ev : Event) (env : Env) (rq : Request) (Key : string).
Variables (err : option S3Error).

Lemma trace_store_404 (data : option S3Data) :
  fetches ev env rq Key err data ->
  not_found err = true ->
  trace ev env
  = [(S3_latency env, Respond (refusal ev "404" "Not Found" "404" "Not Found"))].
Proof.
  intros Hf He. unfold trace. rewrite (run_fetches _ _ _ _ _ _ Hf).
  rewrite s3_callback_not_found by assumption. reflexivity.
Qed.

Lemma trace_no_data :
  fetches ev env rq Key err None ->
  not_found err = false ->
  trace ev env
  = [(S3_latency env, Respond (refusal ev "500" "" "500" "The file is not normal."))].
Proof.
  intros Hf He. unfold trace. rewrite (run_fetches _ _ _ _ _ _ Hf).
  rewrite s3_callback_no_data by assumption. reflexivity.
Qed.

Lemma trace_no_body :
  fetches ev env rq Key err (Some {| Body := None |}) ->
  not_found err = false ->
  trace ev env
  = [(S3_latency env, Respond (refusal ev "404" "Not Found" "404" "Not Found"))].
Proof.
  intros Hf He. unfold trace. rewrite (run_fetches _ _ _ _ _ _ Hf).
  rewrite s3_callback_no_body by assumption. reflexivity.
Qed.

Lemma trace_probe_throws (b : Buffer) (e : string) :
  fetches ev env rq Key err (Some {| Body := Some b |}) ->
  not_found err = false ->
  String.eqb (ext rq) "svg" = false ->
  sizeOf env b = SizeThrows e ->
  trace ev env = [(S3_latency env, Uncaught e)].
Proof.
  intros Hf He Hx Hs. unfold trace. rewrite (run_fetches _ _ _ _ _ _ Hf).
  unfold s3_callback. cbn [Body]. rewrite He, Hx, Hs. reflexivity.
Qed.

Lemma trace_resize_rejects (b : Buffer) (size : option ImageInfo) (e : string) :
  fetches ev env rq Key err (Some {| Body := Some b |}) ->
  not_found err = false ->
  String.eqb (ext rq) "svg" = false ->
  sizeOf env b = SizeReturns size ->
  no_upscale size (target rq) = false ->
  Sharp env b (animated rq) (x (target rq)) (y (target rq)) = Rejects e ->
  trace ev env = [((S3_latency env + Sharp_latency env)%nat, Fail e)].
Proof.
  intros Hf He Hx Hs Hn Ho. unfold trace. rewrite (run_fetches _ _ _ _ _ _ Hf).
  rewrite (s3_callback_resize _ _ _ _ _ size) by assumption.
  cbv zeta. unfold target in Ho. rewrite Ho. reflexivity.
Qed.

End AfterTheFetch.

(** An invocation signals exactly one completion, and it is one of the
    sixteen that [answers] lists. *)
Lemma trace_answers (ev : Event) (env : Env) :
  exists (t : nat) (c : Completion),
    trace ev env = [(t, c)] /\ answers ev env t c.
Proof.
  destruct (parse_request (uri ev)) as [rq|] eqn:Hp.
  2: { do 2 eexists. split; [now apply trace_uri_error | now constructor]. }
  destruct (String.eqb (origin_status ev) "404") eqn:Hs.
  { do 2 eexists. split; [exact (trace_upstream_404 _ env _ Hp Hs) |].
    exact (answers_upstream_404 _ _ _ Hp Hs). }
  destruct (missing (get imageType (ToPropertyKey (profileName rq)))) eqn:Hi.
  { do 2 eexists. split; [exact (trace_profile _ env _ Hp Hi) |].
    exact (answers_profile _ _ _ Hp Hi). }
  destruct (missing (get validType (ext rq))) eqn:Hv.
  { do 2 eexists. split.
    - exact (trace_extension _ env rq Hp Hs Hi Hv).
    - exact (answers_extension _ _ _ Hp Hs Hi Hv). }
  assert (Hc : passes_checks ev rq) by (repeat split; assumption).
  destruct (decodeURI (base rq)) as [Key|] eqn:Hk.
  2: { do 2 eexists. split; [exact (trace_key_error _ env _ Hc Hk) |].
       exact (answers_key_error _ _ _ Hc Hk). }
  destruct (S3_getObject env (bucketName rq) Key) as [e | err data] eqn:Hg.
  { do 2 eexists. split; [exact (trace_s3_throws _ _ _ _ _ Hc Hk Hg) |].
    exact (answers_s3_throws _ _ _ _ _ Hc Hk Hg). }
  assert (Hf : fetches ev env rq Key err data) by (repeat split; assumption).
  destruct (not_found err) eqn:He.
  { do 2 eexists. split; [exact (trace_store_404 _ _ _ _ _ _ Hf He) |].
    exact (answers_store_404 _ _ _ _ _ _ Hf He). }
  destruct data as [[[b|]]|].
  3: { do 2 eexists. split; [exact (trace_no_data _ _ _ _ _ Hf He) |].
       exact (answers_no_data _ _ _ _ _ Hf He). }
  2: { do 2 eexists. split; [exact (trace_no_body _ _ _ _ _ Hf He) |].
       exact (answers_no_body _ _ _ _ _ Hf He). }
  destruct (String.eqb (ext rq) "svg") eqn:Hx.
  { apply String.eqb_eq in Hx.
    do 2 eexists. split; [exact (trace_svg _ _ _ _ _ _ Hf He Hx) |].
    exact (answers_svg _ _ _ _ _ _ Hf He Hx). }
  destruct (sizeOf env b) as [e | size] eqn:Hz.
  { do 2 eexists. split; [exact (trace_probe_throws _ _ _ _ _ _ _ Hf He Hx Hz) |].
    exact (answers_probe_throws _ _ _ _ _ _ _ Hf He Hx Hz). }
  destruct (no_upscale size (target rq)) eqn:Hn.
  - destruct (Z.le_gt_cases (Buffer_length b) limit) as [Hb | Hb].
    + do 2 eexists. split; [exact (trace_pass _ _ _ _ _ _ Hf He size Hx Hz Hn Hb) |].
      exact (answers_pass _ _ _ _ _ _ _ Hf He Hx Hz Hn Hb).
    + do 2 eexists. split;
        [exact (trace_pass_redirect _ _ _ _ _ _ Hf He size Hx Hz Hn Hb) |].
      exact (answers_pass_redirect _ _ _ _ _ _ _ Hf He Hx Hz Hn Hb).
  - destruct (Sharp env b (animated rq) (x (target rq)) (y (target rq)))
      as [out | e] eqn:Ho.
    + destruct (Z.le_gt_cases (String_length (toString_base64 out)) limit) as [Hl | Hl].
      * do 2 eexists. split;
          [exact (trace_resize _ _ _ _ _ _ Hf He size out Hx Hz Hn Ho Hl) |].
        exact (answers_resize _ _ _ _ _ _ _ _ Hf He Hx Hz Hn Ho Hl).
      * do 2 eexists. split;
          [exact (trace_resize_redirect _ _ _ _ _ _ Hf He size out Hx Hz Hn Ho Hl) |].
        exact (answers_resize_redirect _ _ _ _ _ _ _ _ Hf He Hx Hz Hn Ho Hl).
    + do 2 eexists. split;
        [exact (trace_resize_rejects _ _ _ _ _ _ _ _ Hf He Hx Hz Hn Ho) |].
      exact (answers_resize_rejects _ _ _ _ _ _ _ _ Hf He Hx Hz Hn Ho).
Qed.

(** What a trace holds is what [answers] lists. *)
Lemma in_trace_answers (ev : Event) (env : Env) (t : nat) (c : Completion) :
  In (t, c) (trace ev env) -> answers ev env t c.
Proof.
  intros Hin. destruct (trace_answers ev env) as (t' & c' & Ht & Ha).
  rewrite Ht in Hin. destruct Hin as [Heq | []]. now inversion Heq; subst.
Qed.

(** ** The headers of the responses *)

Lemma refusal_cache_control (ev : Event) (s d c m : string) :
  headers (refusal ev s d c m) !! "cache-control" = Some no_cache.
Proof.
  unfold refusal, failResponse, set_fail, init; cbn [headers failHeaders].
  rewrite lookup_insert_ne by discriminate. apply lookup_insert_eq.
Qed.

Lemma refusal_content_type (ev : Event) (s d c m : string) :
  headers (refusal ev s d c m) !! "content-type"
  = Some [ {| key := "Content-Type"; value := "application/json" |} ].
Proof.
  unfold refusal, failResponse, set_fail, init; cbn [headers failHeaders].
  apply lookup_insert_eq.
Qed.

Lemma refusal_other_header (ev : Event) (s d c m k : string) :
  k <> "cache-control" -> k <> "content-type" ->
  headers (refusal ev s d c m) !! k = origin_headers ev !! k.
Proof.
  intros H1 H2.
  unfold refusal, failResponse, set_fail, init; cbn [headers failHeaders].
  now rewrite !lookup_insert_ne by congruence.
Qed.

Lemma inline_cache_control (ev : Event) (ctype b : string) :
  headers (inline ev ctype b) !! "cache-control" = Some max_age.
Proof.
  unfold inline, response, set_header, set_body, init; cbn [headers successHeaders].
  rewrite !lookup_insert_ne by discriminate. apply lookup_insert_eq.
Qed.

Lemma inline_content_type (ev : Event) (ctype b : string) :
  headers (inline ev ctype b) !! "content-type"
  = Some [ {| key := "Content-Type"; value := ctype |} ].
Proof.
  unfold inline, response, set_header, set_body, init; cbn [headers successHeaders].
  apply lookup_insert_eq.
Qed.

Lemma inline_other_header (ev : Event) (ctype b k : string) :
  k <> "cache-control" -> k <> "content-type" ->
  headers (inline ev ctype b) !! k = origin_headers ev !! k.
Proof.
  intros H1 H2.
  unfold inline, response, set_header, set_body, init; cbn [headers successHeaders].
  now rewrite !lookup_insert_ne by congruence.
Qed.

Lemma redirection_location (rq : Request) (Key : string) (st : Store) :
  headers (redirection rq Key st) !! "location"
  = Some [ {| key := "Location"; value := fallback (profileName rq) Key |} ].
Proof. apply lookup_insert_eq. Qed.

Lemma redirection_content_type (ev : Event) (rq : Request) (Key : string) (st : Store) :
  fresh ev st ->
  headers (redirection rq Key st) !! "content-type"
  = Some [ {| key := "Content-Type"; value := "" |} ].
Proof.
  intros Hf. unfold redirection, responseSuccessHeader, set_header, set_found.
  cbn [headers successHeaders]. rewrite Hf. unfold init; cbn [successHeaders].
  rewrite lookup_insert_ne by discriminate. apply lookup_insert_eq.
Qed.

Lemma redirection_other_header (ev : Event) (rq : Request) (Key : string) (st : Store)
    (k : string) :
  fresh ev st ->
  k <> "cache-control" -> k <> "content-type" -> k <> "location" ->
  headers (redirection rq Key st) !! k = origin_headers ev !! k.
Proof.
  intros Hf H1 H2 H3. unfold redirection, responseSuccessHeader, set_header, set_found.
  cbn [headers successHeaders]. rewrite Hf. unfold init; cbn [successHeaders].
  now rewrite !lookup_insert_ne by congruence.
Qed.

(** ** What every response looks like *)

(** Cases on the path that produced a response found in the trace. *)
Ltac by_path Hin :=
  apply in_trace_answers in Hin; inversion Hin; subst; clear Hin.

(** X9.  An invocation signals exactly one completion, whatever the
    request and whatever S3, the probe and the codec do, and leaves no
    task behind. *)
Theorem exactly_one_completion (ev : Event) (env : Env) :
  exists (t : nat) (c : Completion),
    trace ev env = [(t, c)] /\ queue (run ev env) = [].
Proof.
  destruct (trace_answers ev env) as (t & c & Ht & _).
  exists t, c. split; [exact Ht | apply run_drains].
Qed.

(** X10.  The status of a response is 200, 302, 403, 404 or 500:
    the status of the upstream response is never passed on. *)
Theorem response_statuses (ev : Event) (env : Env) (t : nat) (r : Response) :
  In (t, Respond r) (trace ev env) ->
  status r = "200" \/ status r = "302" \/ status r = "403"
  \/ status r = "404" \/ status r = "500".
Proof.
  intros Hin. by_path Hin; cbn; auto 6.
Qed.

Lemma response_statuses_witness :
  exists r : Response,
    In (20%nat, Respond r)
      (trace (event "/image/original/pic.png") outage)
    /\ (status r = "200" \/ status r = "302" \/ status r = "403"
        \/ status r = "404" \/ status r = "500").
Proof.
  eexists. split.
  - rewrite (trace_no_data _ _ _ _ _ fetches_outage eq_refl). left. reflexivity.
  - apply (response_statuses (event "/image/original/pic.png") outage 20).
    rewrite (trace_no_data _ _ _ _ _ fetches_outage eq_refl). left. reflexivity.
Defined.

(** X11.  A response that is neither a 200 nor a 302 is a refusal: its
    body is JSON text, it is not to be cached, and status, description
    and body go together in one of three ways. *)
Theorem refusals_are_json_and_uncached (ev : Event) (env : Env) (t : nat) (r : Response) :
  In (t, Respond r) (trace ev env) ->
  status r <> "200" ->
  status r <> "302" ->
  bodyEncoding r = Some text
  /\ headers r !! "cache-control" = Some no_cache
  /\ headers r !! "content-type"
     = Some [ {| key := "Content-Type"; value := "application/json" |} ]
  /\ ((status r = "404" /\ statusDescription r = "Not Found"
       /\ body r = Some not_found_body)
      \/ (status r = "403" /\ statusDescription r = "Unsupported extension."
          /\ body r = Some unsupported_body)
      \/ (status r = "500" /\ statusDescription r = ""
          /\ body r = Some not_normal_body)).
Proof.
  intros Hin H200 H302.
  by_path Hin;
    try (exfalso; apply H200; reflexivity);
    try (exfalso; apply H302; reflexivity);
    (split; [reflexivity |]);
    (split; [apply refusal_cache_control |]);
    (split; [apply refusal_content_type |]);
    cbn; auto 10.
Qed.

Lemma refusals_are_json_and_uncached_witness :
  exists r : Response,
    In (20%nat, Respond r) (trace (event "/image/original/pic.png") outage)
    /\ bodyEncoding r = Some text
    /\ headers r !! "cache-control" = Some no_cache
    /\ status r = "500".
Proof.
  eexists. split; [| split; [| split]].
  - rewrite (trace_no_data _ _ _ _ _ fetches_outage eq_refl). left. reflexivity.
  - refine (proj1 (refusals_are_json_and_uncached
                     (event "/image/original/pic.png") outage 20 _ _ _ _)).
    + rewrite (trace_no_data _ _ _ _ _ fetches_outage eq_refl). left. reflexivity.
    + discriminate.
    + discriminate.
  - apply refusal_cache_control.
  - reflexivity.
Defined.

(** X12.  A 200 carries a base64 body, the encoding of some buffer,
    is cacheable for a year, and is served as image/svg+xml or as
    image/webp: never under the content type the extension table gives
    for png, jpg, jpeg or gif. *)
Theorem successes_are_base64_svg_or_webp (ev : Event) (env : Env) (t : nat)
    (r : Response) :
  In (t, Respond r) (trace ev env) ->
  status r = "200" ->
  statusDescription r = "OK"
  /\ bodyEncoding r = Some base64
  /\ (exists b : Buffer, body r = Some (toString_base64 b))
  /\ headers r !! "cache-control" = Some max_age
  /\ (headers r !! "content-type"
      = Some [ {| key := "Content-Type"; value := "image/svg+xml" |} ]
      \/ headers r !! "content-type"
         = Some [ {| key := "Content-Type"; value := "image/webp" |} ]).
Proof.
  intros Hin H200.
  by_path Hin; try discriminate H200;
    (split; [reflexivity |]);
    (split; [reflexivity |]);
    (split; [eexists; reflexivity |]);
    (split; [apply inline_cache_control |]);
    first [left; apply inline_content_type | right; apply inline_content_type].
Qed.

Lemma successes_are_base64_svg_or_webp_witness :
  exists r : Response,
    In (20%nat, Respond r)
      (trace (event "/image/constructor/logo.svg")
         (world "logo.svg" svg_bytes 20 svg_info encoded_bytes))
    /\ statusDescription r = "OK"
    /\ bodyEncoding r = Some base64.
Proof.
  eexists. split; [| split].
  - rewrite (trace_svg _ _ _ _ _ _ fetches_constructor_profile eq_refl eq_refl).
    left. reflexivity.
  - refine (proj1 (successes_are_base64_svg_or_webp
                     (event "/image/constructor/logo.svg")
                     (world "logo.svg" svg_bytes 20 svg_info encoded_bytes) 20 _ _ _)).
    + rewrite (trace_svg _ _ _ _ _ _ fetches_constructor_profile eq_refl eq_refl).
      left. reflexivity.
    + reflexivity.
  - reflexivity.
Defined.

(** X13.  A 302 has no body and no body encoding; its Location is the
    fallback host, the profile segment of the request and the decoded
    file name, which is the key S3 was asked for; and its Content-Type
    header is the empty string the success headers start with. *)
Theorem redirects_point_to_the_fallback (ev : Event) (env : Env) (t : nat)
    (r : Response) :
  In (t, Respond r) (trace ev env) ->
  status r = "302" ->
  statusDescription r = "Found"
  /\ bodyEncoding r = None
  /\ body r = None
  /\ headers r !! "content-type" = Some [ {| key := "Content-Type"; value := "" |} ]
  /\ exists (rq : Request) (Key : string) (err : option S3Error) (b : Buffer),
       fetches ev env rq Key err (Some {| Body := Some b |})
       /\ headers r !! "location"
          = Some [ {| key := "Location";
                      value := polyfillHost ++ "/prod/image/"
                               ++ ToPropertyKey (profileName rq) ++ "/" ++ Key |} ].
Proof.
  intros Hin H302.
  by_path Hin; try discriminate H302;
    (split; [reflexivity |]);
    (split; [reflexivity |]);
    (split; [reflexivity |]);
    (split; [apply (redirection_content_type ev); reflexivity |]);
    do 4 eexists; (split; [eassumption |]); apply redirection_location.
Qed.

Lemma redirects_point_to_the_fallback_witness :
  exists r : Response,
    In ((20 + 40)%nat, Respond r)
      (trace (event "/image/original/pic.png")
         (world "pic.png" source_bytes 20 png_info large_bytes))
    /\ statusDescription r = "Found"
    /\ body r = None.
Proof.
  eexists. split; [| split].
  - rewrite trace_large_resized. left. reflexivity.
  - refine (proj1 (redirects_point_to_the_fallback
                     (event "/image/original/pic.png")
                     (world "pic.png" source_bytes 20 png_info large_bytes)
                     (20 + 40) _ _ _)).
    + rewrite trace_large_resized. left. reflexivity.
    + reflexivity.
  - reflexivity.
Defined.

(** X14.  Every header of the upstream response other than
    cache-control, content-type and location is passed on unchanged, in
    every response. *)
Theorem upstream_headers_are_kept (ev : Event) (env : Env) (t : nat) (r : Response)
    (k : string) :
  In (t, Respond r) (trace ev env) ->
  k <> "cache-control" ->
  k <> "content-type" ->
  k <> "location" ->
  headers r !! k = origin_headers ev !! k.
Proof.
  intros Hin H1 H2 H3.
  by_path Hin;
    first [ now apply refusal_other_header
          | now apply inline_other_header
          | now apply (redirection_other_header ev) ].
Qed.

Lemma fetches_tagged_svg :
  fetches (tagged "/image/original/logo.svg")
    (world "logo.svg" svg_bytes 20 svg_info encoded_bytes)
    {| pathParse := [""; "image"; "original"]; base := "logo.svg"; ext := "svg";
       bucketName := BUCKET_image |}
    "logo.svg" None (Some {| Body := Some svg_bytes |}).
Proof. fetches_by_evaluation. Qed.

Lemma upstream_headers_are_kept_witness :
  exists r : Response,
    In (20%nat, Respond r)
      (trace (tagged "/image/original/logo.svg")
         (world "logo.svg" svg_bytes 20 svg_info encoded_bytes))
    /\ headers r !! "etag" = Some [ {| key := "ETag"; value := "abc" |} ].
Proof.
  eexists. split.
  - rewrite (trace_svg _ _ _ _ _ _ fetches_tagged_svg eq_refl eq_refl).
    left. reflexivity.
  - rewrite (upstream_headers_are_kept (tagged "/image/original/logo.svg")
               (world "logo.svg" svg_bytes 20 svg_info encoded_bytes) 20 _ "etag").
    + reflexivity.
    + rewrite (trace_svg _ _ _ _ _ _ fetches_tagged_svg eq_refl eq_refl).
      left. reflexivity.
    + discriminate.
    + discriminate.
    + discriminate.
Defined.

(** X15.  A 403 comes from the extension check and from nowhere else:
    it is signalled when the handler is invoked, before any fetch, and
    the same invocation gives the same trace whatever S3, the probe and
    the codec would have done. *)
Theorem forbidden_is_decided_before_the_fetch (ev : Event) (env : Env) (t : nat)
    (r : Response) :
  In (t, Respond r) (trace ev env) ->
  status r = "403" ->
  t = 0%nat
  /\ (exists rq : Request,
        parse_request (uri ev) = Some rq /\ get validType (ext rq) = Undefined)
  /\ forall env' : Env, trace ev env' = trace ev env.
Proof.
  intros Hin H403.
  by_path Hin; try discriminate H403.
  split; [reflexivity |]. split.
  - exists rq. split; [assumption |].
    destruct (get validType (ext rq)); [discriminate | discriminate | reflexivity].
  - intros env'.
    rewrite (trace_extension ev env' rq), (trace_extension ev env rq) by assumption.
    reflexivity.
Qed.

Lemma forbidden_is_decided_before_the_fetch_witness :
  trace (event "/image/original/picture.bmp")
    (world "picture.bmp" source_bytes 20 png_info encoded_bytes)
  = trace (event "/image/original/picture.bmp") outage.
Proof.
  refine (proj2 (proj2 (forbidden_is_decided_before_the_fetch
                          (event "/image/original/picture.bmp") outage 0
                          (refusal (event "/image/original/picture.bmp")
                             "403" "Unsupported extension."
                             "403" "Unsupported extension.") _ _))
            (world "picture.bmp" source_bytes 20 png_info encoded_bytes)).
  - rewrite (trace_extension (event "/image/original/picture.bmp") outage
               {| pathParse := [""; "image"; "original"]; base := "picture.bmp";
                  ext := "bmp"; bucketName := BUCKET_image |}
               eq_refl eq_refl eq_refl eq_refl).
    left. reflexivity.
  - reflexivity.
Defined.

(** ** The checks, one by one *)

(** X1.  When the upstream response is a 404: a request whose path
    decodes is answered with the 404 refusal, at once, and neither the
    profile, nor the extension, nor the store is looked at; a request
    whose path does not decode never reaches the check, the handler has
    thrown before the try block. *)
Theorem upstream_404_is_not_found (ev : Event) (env : Env) :
  origin_status ev = "404" ->
  match decodeURIComponent (uri ev) with
  | Some _ =>
      exists r : Response,
        trace ev env = [(0%nat, Respond r)]
        /\ status r = "404"
        /\ statusDescription r = "Not Found"
        /\ bodyEncoding r = Some text
        /\ body r = Some not_found_body
        /\ headers r !! "cache-control" = Some no_cache
  | None => trace ev env = [(0%nat, Uncaught "URIError")]
  end.
Proof.
  intros Hs.
  destruct (decodeURIComponent (uri ev)) as [p |] eqn:Hd.
  - assert (Hp : exists rq, parse_request (uri ev) = Some rq)
      by (unfold parse_request; rewrite Hd; eexists; reflexivity).
    destruct Hp as [rq Hp]. eexists. split.
    + apply (trace_upstream_404 ev env rq Hp). rewrite Hs. reflexivity.
    + repeat apply conj; [reflexivity .. | apply refusal_cache_control].
  - apply trace_uri_error. unfold parse_request. now rewrite Hd.
Qed.

Lemma upstream_404_is_not_found_witness :
  (exists r : Response,
     trace (upstream_404 "/image/thumbnail/photo.webp")
       (world "photo.webp" source_bytes 20 big_webp_info encoded_bytes)
     = [(0%nat, Respond r)]
     /\ status r = "404"
     /\ statusDescription r = "Not Found"
     /\ bodyEncoding r = Some text
     /\ body r = Some not_found_body
     /\ headers r !! "cache-control" = Some no_cache)
  /\ trace (upstream_404 "/image/thumbnail/a%zz.webp")
       (world "photo.webp" source_bytes 20 big_webp_info encoded_bytes)
     = [(0%nat, Uncaught "URIError")].
Proof.
  split.
  - exact (upstream_404_is_not_found (upstream_404 "/image/thumbnail/photo.webp")
             (world "photo.webp" source_bytes 20 big_webp_info encoded_bytes) eq_refl).
  - exact (upstream_404_is_not_found (upstream_404 "/image/thumbnail/a%zz.webp")
             (world "photo.webp" source_bytes 20 big_webp_info encoded_bytes) eq_refl).
Defined.

(** X2.  A profile segment that is neither a key of the profile table
    nor a name every object inherits is answered with the 404 refusal,
    at once, whatever the upstream status, the extension and the
    store. *)
Theorem unlisted_profile_is_not_found (ev : Event) (env : Env) (rq : Request)
    (name : string) :
  parse_request (uri ev) = Some rq ->
  profileName rq = Some name ->
  own_property imageType name = None ->
  existsb (String.eqb name) Object_prototype_keys = false ->
  exists r : Response,
    trace ev env = [(0%nat, Respond r)]
    /\ status r = "404"
    /\ bodyEncoding r = Some text
    /\ body r = Some not_found_body
    /\ headers r !! "cache-control" = Some no_cache.
Proof.
  intros Hp Hn Ho Hi. eexists. split.
  - apply (trace_profile ev env rq Hp). rewrite Hn. cbn [ToPropertyKey].
    unfold get. now rewrite Ho, Hi.
  - repeat apply conj; [reflexivity .. | apply refusal_cache_control].
Qed.

Lemma unlisted_profile_is_not_found_witness :
  exists r : Response,
    trace (event "/image/unknownprofile/x.png")
      (world "x.png" source_bytes 20 png_info encoded_bytes)
    = [(0%nat, Respond r)]
    /\ status r = "404"
    /\ bodyEncoding r = Some text
    /\ body r = Some not_found_body
    /\ headers r !! "cache-control" = Some no_cache.
Proof.
  apply (unlisted_profile_is_not_found (event "/image/unknownprofile/x.png") _
           {| pathParse := [""; "image"; "unknownprofile"]; base := "x.png";
              ext := "png"; bucketName := BUCKET_image |} "unknownprofile").
  - reflexivity.
  - reflexivity.
  - reflexivity.
  - reflexivity.
Defined.

(** X3.  A path with fewer than two directory segments has no profile
    segment: [pathParse[2]] is [undefined], the table is asked for the
    key 'undefined', and the answer is the 404 refusal. *)
Theorem missing_profile_segment_is_not_found (ev : Event) (env : Env) (rq : Request) :
  parse_request (uri ev) = Some rq ->
  (length (pathParse rq) <= 2)%nat ->
  exists r : Response,
    trace ev env = [(0%nat, Respond r)]
    /\ status r = "404"
    /\ body r = Some not_found_body.
Proof.
  intros Hp Hl. eexists. split.
  - apply (trace_profile ev env rq Hp).
    unfold profileName.
    destruct (nth_error (pathParse rq) 2) as [name|] eqn:Hn; [| reflexivity].
    exfalso.
    assert (2 < length (pathParse rq))%nat; [| lia].
    apply List.nth_error_Some. rewrite Hn. discriminate.
  - split; reflexivity.
Qed.

Lemma missing_profile_segment_is_not_found_witness :
  exists r : Response,
    trace (event "/x.png") (world "x.png" source_bytes 20 png_info encoded_bytes)
    = [(0%nat, Respond r)]
    /\ status r = "404"
    /\ body r = Some not_found_body.
Proof.
  apply (missing_profile_segment_is_not_found (event "/x.png") _
           {| pathParse := [""; ""]; base := "x.png"; ext := "png";
              bucketName := BUCKET_image |}).
  - reflexivity.
  - cbn. lia.
Defined.

(** X4.  With an upstream status other than 404 and a profile segment
    the check lets through, an extension that is neither a key of the
    extension table nor an inherited name is answered with the 403
    refusal, at once, whatever the store holds. *)
Theorem unlisted_extension_is_forbidden (ev : Event) (env : Env) (rq : Request) :
  parse_request (uri ev) = Some rq ->
  origin_status ev <> "404" ->
  missing (get imageType (ToPropertyKey (profileName rq))) = false ->
  own_property validType (ext rq) = None ->
  existsb (String.eqb (ext rq)) Object_prototype_keys = false ->
  exists r : Response,
    trace ev env = [(0%nat, Respond r)]
    /\ status r = "403"
    /\ statusDescription r = "Unsupported extension."
    /\ bodyEncoding r = Some text
    /\ body r = Some unsupported_body
    /\ headers r !! "cache-control" = Some no_cache.
Proof.
  intros Hp Hs Hi Ho Hk. eexists. split.
  - apply (trace_extension ev env rq Hp); [| exact Hi |].
    + now apply String.eqb_neq.
    + unfold get. now rewrite Ho, Hk.
  - repeat apply conj; [reflexivity .. | apply refusal_cache_control].
Qed.

Lemma unlisted_extension_is_forbidden_witness :
  exists r : Response,
    trace (event "/image/original/picture.bmp")
      (world "picture.bmp" source_bytes 20 png_info encoded_bytes)
    = [(0%nat, Respond r)]
    /\ status r = "403"
    /\ statusDescription r = "Unsupported extension."
    /\ bodyEncoding r = Some text
    /\ body r = Some unsupported_body
    /\ headers r !! "cache-control" = Some no_cache.
Proof.
  apply (unlisted_extension_is_forbidden (event "/image/original/picture.bmp") _
           {| pathParse := [""; "image"; "original"]; base := "picture.bmp";
              ext := "bmp"; bucketName := BUCKET_image |}).
  - reflexivity.
  - discriminate.
  - reflexivity.
  - reflexivity.
  - reflexivity.
Defined.

Lemma fetches_absent_object :
  fetches (event "/image/original/other.png")
    (world "logo.svg" svg_bytes 20 svg_info encoded_bytes)
    {| pathParse := [""; "image"; "original"]; base := "other.png"; ext := "png";
       bucketName := BUCKET_image |}
    "other.png" (Some {| statusCode := 404 |}) None.
Proof. fetches_by_evaluation. Qed.

(** X5.  When S3 reports an error with status code 404 the answer is
    the 404 refusal, whatever data came with the error. *)
Theorem store_404_is_not_found (ev : Event) (env : Env) (rq : Request) (Key : string)
    (e : S3Error) (data : option S3Data) :
  fetches ev env rq Key (Some e) data ->
  statusCode e = 404 ->
  exists r : Response,
    trace ev env = [(S3_latency env, Respond r)]
    /\ status r = "404"
    /\ statusDescription r = "Not Found"
    /\ bodyEncoding r = Some text
    /\ body r = Some not_found_body
    /\ headers r !! "cache-control" = Some no_cache.
Proof.
  intros Hf He. eexists. split.
  - apply (trace_store_404 _ _ _ _ _ _ Hf). cbn. rewrite He. reflexivity.
  - repeat apply conj; [reflexivity .. | apply refusal_cache_control].
Qed.

Lemma store_404_is_not_found_witness :
  exists r : Response,
    trace (event "/image/original/other.png")
      (world "logo.svg" svg_bytes 20 svg_info encoded_bytes)
    = [(20%nat, Respond r)]
    /\ status r = "404"
    /\ statusDescription r = "Not Found"
    /\ bodyEncoding r = Some text
    /\ body r = Some not_found_body
    /\ headers r !! "cache-control" = Some no_cache.
Proof.
  exact (store_404_is_not_found _ _ _ _ _ _ fetches_absent_object eq_refl).
Defined.

(** ** Bodies and the ceiling *)

(** X6, on a stored svg: [svg_passes_through] at work. *)
Lemma svg_passes_through_witness :
  exists r : Response,
    delivered (event "/image/original/logo.svg")
      (world "logo.svg" svg_bytes (6 * 1000) svg_info encoded_bytes)
    = Some (Respond r)
    /\ status r = "200"
    /\ bodyEncoding r = Some base64
    /\ body r = Some (toString_base64 svg_bytes)
    /\ headers r !! "content-type"
       = Some [ {| key := "Content-Type"; value := "image/svg+xml" |} ].
Proof.
  exact (svg_passes_through _ _ _ _ _ _ fetches_slow_svg eq_refl eq_refl).
Defined.

Lemma oversize_bytes_length : Buffer_length oversize_bytes = 1048577.
Proof.
  unfold Buffer_length, oversize_bytes.
  rewrite repeat_length, N_nat_Z. reflexivity.
Qed.

(** X7, on a webp of 1,048,577 bytes met on the no-upscale branch. *)
Lemma oversize_body_redirects_witness :
  exists r : Response,
    delivered (event "/image/thumbnail/small.webp")
      (world "small.webp" oversize_bytes 20 small_webp_info encoded_bytes)
    = Some (Respond r)
    /\ status r = "302"
    /\ body r = None
    /\ headers r !! "location"
       = Some [ {| key := "Location";
                   value := fallback (Some "thumbnail") "small.webp" |} ].
Proof.
  apply (oversize_body_redirects _ _ _ _ _ _ (Some small_webp_info)
           (fetches_small_webp oversize_bytes encoded_bytes)).
  - reflexivity.
  - reflexivity.
  - reflexivity.
  - left. split; [reflexivity |].
    rewrite oversize_bytes_length. unfold limit. lia.
Defined.

(** The text of a buffer is within the ceiling exactly when the buffer
    has at most 786,432 bytes, three quarters of the ceiling. *)
Lemma text_within_ceiling (b : Buffer) :
  String_length (toString_base64 b) <= limit <-> Buffer_length b <= 786432.
Proof.
  rewrite toString_base64_length. unfold limit.
  pose proof (Z.div_mod (Buffer_length b + 2) 3 ltac:(lia)) as Hd.
  pose proof (Z.mod_pos_bound (Buffer_length b + 2) 3 ltac:(lia)) as Hm.
  lia.
Qed.

(** X8.  After a resize the ceiling falls on the base64 text, so in
    bytes it is 786,432: a resized image of at most that many bytes is
    returned with status 200 as image/webp, a larger one is answered
    with the redirect. *)
Theorem resized_ceiling_is_786432_bytes (ev : Event) (env : Env) (rq : Request)
    (Key : string) (err : option S3Error) (b : Buffer) (size : option ImageInfo)
    (out : Buffer) :
  fetches ev env rq Key err (Some {| Body := Some b |}) ->
  not_found err = false ->
  String.eqb (ext rq) "svg" = false ->
  sizeOf env b = SizeReturns size ->
  no_upscale size (target rq) = false ->
  Sharp env b (animated rq) (x (target rq)) (y (target rq)) = Resolves out ->
  exists r : Response,
    delivered ev env = Some (Respond r)
    /\ (Buffer_length out <= 786432 ->
        status r = "200" /\ body r = Some (toString_base64 out)
        /\ headers r !! "content-type"
           = Some [ {| key := "Content-Type"; value := "image/webp" |} ])
    /\ (786432 < Buffer_length out ->
        status r = "302" /\ body r = None
        /\ headers r !! "location"
           = Some [ {| key := "Location"; value := fallback (profileName rq) Key |} ]).
Proof.
  intros Hf He Hx Hs Hn Ho.
  destruct (Z.le_gt_cases (Buffer_length out) 786432) as [Hb | Hb].
  - eexists. split; [| split].
    + eapply delivered_trace.
      apply (trace_resize _ _ _ _ _ _ Hf He size out Hx Hs Hn Ho).
      now apply text_within_ceiling.
    + intros _. repeat apply conj; [reflexivity | reflexivity |].
      apply lookup_insert_eq.
    + intros Hgt. lia.
  - eexists. split; [| split].
    + eapply delivered_trace.
      apply (trace_resize_redirect _ _ _ _ _ _ Hf He size out Hx Hs Hn Ho).
      pose proof (text_within_ceiling out). lia.
    + intros Hle. lia.
    + intros _. repeat apply conj; [reflexivity | reflexivity |].
      apply lookup_insert_eq.
Qed.

Lemma resized_ceiling_is_786432_bytes_witness :
  exists r : Response,
    delivered (event "/image/original/pic.png")
      (world "pic.png" source_bytes 20 png_info large_bytes)
    = Some (Respond r)
    /\ status r = "302"
    /\ body r = None.
Proof.
  destruct (resized_ceiling_is_786432_bytes _ _ _ _ _ _ (Some png_info) large_bytes
              (fetches_original_png large_bytes) eq_refl eq_refl eq_refl eq_refl eq_refl)
    as (r & Hd & _ & Hlarge).
  exists r. split; [exact Hd |].
  destruct Hlarge as (Hs & Hb & _).
  - rewrite large_bytes_length. lia.
  - split; assumption.
Defined.

(** ** Errors on the way *)

Lemma fetches_broken_codec :
  fetches (event "/image/original/pic.png")
    (broken_codec "pic.png" source_bytes png_info)
    {| pathParse := [""; "image"; "original"]; base := "pic.png"; ext := "png";
       bucketName := BUCKET_image |}
    "pic.png" None (Some {| Body := Some source_bytes |}).
Proof. fetches_by_evaluation. Qed.

(** X16.  When the codec rejects, its error is what the runtime is
    given: no response is built, neither a 500 nor a redirect. *)
Theorem codec_error_is_passed_on (ev : Event) (env : Env) (rq : Request)
    (Key : string) (err : option S3Error) (b : Buffer) (size : option ImageInfo)
    (e : string) :
  fetches ev env rq Key err (Some {| Body := Some b |}) ->
  not_found err = false ->
  String.eqb (ext rq) "svg" = false ->
  sizeOf env b = SizeReturns size ->
  no_upscale size (target rq) = false ->
  Sharp env b (animated rq) (x (target rq)) (y (target rq)) = Rejects e ->
  trace ev env = [((S3_latency env + Sharp_latency env)%nat, Fail e)]
  /\ delivered ev env = Some (Fail e).
Proof.
  intros Hf He Hx Hs Hn Ho.
  pose proof (trace_resize_rejects _ _ _ _ _ _ _ _ Hf He Hx Hs Hn Ho) as Ht.
  split; [exact Ht | exact (delivered_trace _ _ _ _ Ht)].
Qed.

Lemma codec_error_is_passed_on_witness :
  delivered (event "/image/original/pic.png")
    (broken_codec "pic.png" source_bytes png_info)
  = Some (Fail "Input buffer contains unsupported image format").
Proof.
  exact (proj2 (codec_error_is_passed_on _ _ _ _ _ _ (Some png_info) _
                  fetches_broken_codec eq_refl eq_refl eq_refl eq_refl eq_refl)).
Defined.

(** X17.  When the call to S3 itself throws, the error is given to the
    runtime when the handler is invoked, and no task is left pending. *)
Theorem client_error_is_passed_on (ev : Event) (env : Env) (rq : Request)
    (Key e : string) :
  passes_checks ev rq ->
  decodeURI (base rq) = Some Key ->
  S3_getObject env (bucketName rq) Key = S3Throws e ->
  trace ev env = [(0%nat, Fail e)] /\ queue (handler ev env) = [].
Proof.
  intros Hc Hk Hg. split; [exact (trace_s3_throws _ _ _ _ _ Hc Hk Hg) |].
  destruct Hc as (Hp & Hs & Hi & Hv).
  unfold handler. rewrite Hp. unfold try_block. rewrite Hs, Hi, Hv, Hk, Hg.
  reflexivity.
Qed.

Lemma client_error_is_passed_on_witness :
  trace (event "/image/original/pic.png") broken_client
  = [(0%nat, Fail "MissingRequiredParameter")]
  /\ queue (handler (event "/image/original/pic.png") broken_client) = [].
Proof.
  apply (client_error_is_passed_on (event "/image/original/pic.png") broken_client
           {| pathParse := [""; "image"; "original"]; base := "pic.png"; ext := "png";
              bucketName := BUCKET_image |} "pic.png").
  - repeat (split; [reflexivity |]). reflexivity.
  - reflexivity.
  - reflexivity.
Defined.

(** X18.  A file name that still holds a malformed escape after the
    first decoding makes [decodeURI] throw inside the inner try: the
    error is given to the runtime and S3 is not asked. *)
Theorem malformed_file_name_is_an_error (ev : Event) (env : Env) (rq : Request) :
  passes_checks ev rq ->
  decodeURI (base rq) = None ->
  delivered ev env = Some (Fail "URIError")
  /\ queue (handler ev env) = []
  /\ forall env' : Env, trace ev env' = trace ev env.
Proof.
  intros Hc Hk.
  pose proof (trace_key_error ev env rq Hc Hk) as Ht.
  split; [exact (delivered_trace _ _ _ _ Ht) |]. split.
  - destruct Hc as (Hp & Hs & Hi & Hv).
    unfold handler. rewrite Hp. unfold try_block. rewrite Hs, Hi, Hv, Hk.
    reflexivity.
  - intros env'. now rewrite Ht, (trace_key_error ev env' rq Hc Hk).
Qed.

Lemma malformed_file_name_is_an_error_witness :
  delivered (event "/image/original/a%25zz.png") outage = Some (Fail "URIError").
Proof.
  apply (malformed_file_name_is_an_error (event "/image/original/a%25zz.png") outage
           {| pathParse := [""; "image"; "original"]; base := "a%zz.png"; ext := "png";
              bucketName := BUCKET_image |}).
  - repeat (split; [reflexivity |]). reflexivity.
  - reflexivity.
Defined.

(** X19.  A request path that cannot be decoded makes the handler throw
    before it sets the timer: the callback is never called and nothing
    is pending. *)
Theorem undecodable_path_throws (ev : Event) (env : Env) :
  decodeURIComponent (uri ev) = None ->
  trace ev env = [(0%nat, Uncaught "URIError")]
  /\ queue (handler ev env) = []
  /\ forall (t : nat) (c : Completion),
       In (t, c) (trace ev env) ->
       (forall r, c <> Respond r) /\ (forall e, c <> Fail e).
Proof.
  intros Hd.
  assert (Hp : parse_request (uri ev) = None)
    by (unfold parse_request; now rewrite Hd).
  pose proof (trace_uri_error ev env Hp) as Ht.
  split; [exact Ht |]. split.
  - unfold handler. now rewrite Hp.
  - intros t c Hin. rewrite Ht in Hin. destruct Hin as [Heq | []].
    inversion Heq; subst. split; intros; discriminate.
Qed.

Lemma undecodable_path_throws_witness :
  trace (event "/image/original/a%zz.png") outage = [(0%nat, Uncaught "URIError")].
Proof.
  exact (proj1 (undecodable_path_throws (event "/image/original/a%zz.png") outage
                  eq_refl)).
Defined.

(** ** The key, the bucket and the extension *)

(** Text without a percent sign decodes to itself. *)
Lemma Decode_plain (preserve : ascii -> bool) (s : string) :
  string_mem "%"%char s = false -> Decode preserve 0 [] s = Some s.
Proof.
  induction s as [| c rest IH]; intros Hm; [reflexivity |].
  cbn [string_mem] in Hm. apply orb_false_iff in Hm. destruct Hm as [Hc Hr].
  cbn [Decode]. rewrite Ascii.eqb_sym, Hc, (IH Hr). reflexivity.
Qed.

(** X20.  When the last segment of the decoded path holds no percent
    sign, the second decoding changes nothing: the key S3 is asked for,
    and the file name of a redirect, is that segment as it stands. *)
Theorem plain_file_name_is_the_key (ev : Event) (env : Env) (rq : Request)
    (Key : string) (err : option S3Error) (data : option S3Data) :
  fetches ev env rq Key err data ->
  string_mem "%"%char (base rq) = false ->
  Key = base rq
  /\ location rq
     = Some (polyfillHost ++ "/prod/image/" ++ ToPropertyKey (profileName rq)
               ++ "/" ++ base rq).
Proof.
  intros Hf Hm.
  pose proof (fetches_location _ _ _ _ _ _ Hf) as Hl.
  destruct Hf as (_ & _ & _ & _ & Hk & _).
  unfold decodeURI in Hk. rewrite (Decode_plain _ _ Hm) in Hk.
  injection Hk as <-. split; [reflexivity | exact Hl].
Qed.

Lemma plain_file_name_is_the_key_witness :
  "photo.webp" = "photo.webp"
  /\ location {| pathParse := [""; "image"; "thumbnail"]; base := "photo.webp";
                 ext := "webp"; bucketName := BUCKET_image |}
     = Some (polyfillHost ++ "/prod/image/" ++ "thumbnail" ++ "/" ++ "photo.webp").
Proof.
  exact (plain_file_name_is_the_key _ _ _ _ _ _ fetches_big_webp eq_refl).
Defined.

(** The switch on the profile segment, as a comparison. *)
Lemma profile_switch (A : Type) (o : option string) (a b : A) :
  match o with
  | Some "profile" => a
  | _ => b
  end
  = if match o with Some s => String.eqb s "profile" | None => false end then a else b.
Proof.
  destruct o as [s |]; [| reflexivity].
  do 7 (destruct s as [| [[] [] [] [] [] [] [] []] s]; try reflexivity).
  destruct s; reflexivity.
Qed.

(** X21.  The bucket is the profile bucket exactly when the profile
    segment is 'profile'; for any other segment, and for a path without
    one, it is the image bucket. *)
Theorem bucket_follows_profile_segment (u : string) (rq : Request) :
  parse_request u = Some rq ->
  (profileName rq = Some "profile" -> bucketName rq = "ogxyz-image-profile")
  /\ (profileName rq <> Some "profile" -> bucketName rq = "ogxyz-image").
Proof.
  unfold parse_request. destruct (decodeURIComponent u) as [p |]; [| discriminate].
  intros Hp. injection Hp as <-. cbv [profileName pathParse bucketName].
  rewrite profile_switch.
  destruct (split "/"%char (Path.dir (Path.parse p))) as [| s0 [| s1 [| s l]]];
    cbn [nth_error]; try (split; [discriminate | reflexivity]).
  destruct (String.eqb_spec s "profile") as [-> | Hne].
  - split; [reflexivity | intros H; now elim H].
  - split; [intros H; injection H as ->; now elim Hne | reflexivity].
Qed.

Lemma bucket_follows_profile_segment_witness :
  bucketName {| pathParse := [""; "image"; "profile"]; base := "me.jpg"; ext := "jpg";
                bucketName := BUCKET_profile |} = "ogxyz-image-profile".
Proof.
  apply (proj1 (bucket_follows_profile_segment "/image/profile/me.jpg" _ eq_refl)).
  reflexivity.
Defined.
